(** * CostGuardian log export: a shallow embedding of
    [frontend/components/log-downloader.tsx]

    The component turns the dashboard's [deleted_resources] list into two JSON
    exports (complete log and one month) and enumerates the months present.
    The JavaScript runtime pieces it relies on ([Date], [parseInt], [split],
    [padStart], [toFixed], [Object.entries], [Array.prototype.sort]) are
    modelled first, then the component's functions, named as in the source.

    Numbers are JavaScript doubles in the source; here savings are exact
    rationals [Q], so sums carry no rounding error (the disagreements shown
    below all use values doubles represent exactly). *)

From Stdlib Require Import ZArith QArith Qround List String Ascii Bool Lia.
From Stdlib Require Import Sorting.Permutation Sorting.Sorted.
Import ListNotations.
Open Scope string_scope.
Open Scope Z_scope.

Local Infix "+++" := String.append (at level 60, right associativity).

(** ** Strings and numbers of the JavaScript runtime *)

Definition digit_char (d : Z) : ascii := ascii_of_nat (48 + Z.to_nat d).

(** Decimal digits of a non-negative integer, [fuel] bounding the length. *)
Fixpoint digits_fuel (fuel : nat) (n : Z) (acc : string) : string :=
  match fuel with
  | O => acc
  | S f =>
      let acc' := String (digit_char (n mod 10)) acc in
      if n <? 10 then acc' else digits_fuel f (n / 10) acc'
  end.

Definition string_of_nonneg (n : Z) : string :=
  digits_fuel (S (Z.to_nat (Z.log2 n))) n EmptyString.

(** [Number.prototype.toString] on an integral number; [None] is NaN. *)
Definition number_to_string (x : option Z) : string :=
  match x with
  | None => "NaN"
  | Some n => if n <? 0 then "-" +++ string_of_nonneg (- n) else string_of_nonneg n
  end.

Fixpoint repeat_char (n : nat) (c : ascii) : string :=
  match n with O => EmptyString | S k => String c (repeat_char k c) end.

(** [s.padStart(n, c)] with a one-character pad string. *)
Definition padStart (n : nat) (c : ascii) (s : string) : string :=
  repeat_char (n - String.length s)%nat c +++ s.

(** [s.split(sep)] for a one-character separator. *)
Fixpoint split_on (sep : ascii) (s : string) : list string :=
  match s with
  | EmptyString => [EmptyString]
  | String c r =>
      let parts := split_on sep r in
      if Ascii.eqb c sep then EmptyString :: parts
      else match parts with
           | p :: ps => String c p :: ps
           | [] => [String c EmptyString]
           end
  end.

Definition is_js_space (c : ascii) : bool :=
  match nat_of_ascii c with
  | 9 | 10 | 11 | 12 | 13 | 32 => true
  | _ => false
  end%nat.

Fixpoint skip_space (s : string) : string :=
  match s with
  | String c r => if is_js_space c then skip_space r else s
  | EmptyString => s
  end.

Definition digit_value (c : ascii) : option Z :=
  let n := Z.of_nat (nat_of_ascii c) in
  if (48 <=? n) && (n <=? 57) then Some (n - 48)
  else if (97 <=? n) && (n <=? 122) then Some (n - 87)
  else if (65 <=? n) && (n <=? 90) then Some (n - 55)
  else None.

Fixpoint take_digits (radix : Z) (s : string) (acc : Z) (seen : bool) : option Z :=
  match s with
  | String c r =>
      match digit_value c with
      | Some v => if v <? radix then take_digits radix r (acc * radix + v) true
                  else if seen then Some acc else None
      | None => if seen then Some acc else None
      end
  | EmptyString => if seen then Some acc else None
  end.

(** [parseInt(s)] without a radix argument; [None] is NaN. *)
Definition parseInt (s : string) : option Z :=
  let s := skip_space s in
  let '(sign, s) :=
    match s with
    | String "-" r => (-1, r)
    | String "+" r => (1, r)
    | _ => (1, s)
    end in
  let '(radix, s) :=
    match s with
    | String "0" (String c r) =>
        if Ascii.eqb c "x" || Ascii.eqb c "X" then (16, r) else (10, s)
    | _ => (10, s)
    end in
  option_map (Z.mul sign) (take_digits radix s 0 false).

(** [parseInt(undefined)] is [parseInt("undefined")], that is NaN. *)
Definition parseInt_opt (s : option string) : option Z :=
  match s with Some s => parseInt s | None => None end.

(** ** Time values and the calendar of [Date] *)

Definition msPerDay : Z := 86400000.

Definition Day (t : Z) : Z := t / msPerDay.

(** Year, month (1..12) and day of month of a day number counted from
    1970-01-01 (the proleptic Gregorian calendar of ECMAScript dates). *)
Definition civil_from_days (z0 : Z) : Z * Z * Z :=
  let z := z0 + 719468 in
  let era := z / 146097 in
  let doe := z - era * 146097 in
  let yoe := (doe - doe / 1460 + doe / 36524 - doe / 146096) / 365 in
  let y := yoe + era * 400 in
  let doy := doe - (365 * yoe + yoe / 4 - yoe / 100) in
  let mp := (5 * doy + 2) / 153 in
  let d := doy - (153 * mp + 2) / 5 + 1 in
  let m := if mp <? 10 then mp + 3 else mp - 9 in
  (if m <=? 2 then y + 1 else y, m, d).

(** Day number of a year, month (1..12) and day of month. *)
Definition days_from_civil (y0 m d : Z) : Z :=
  let y := if m <=? 2 then y0 - 1 else y0 in
  let era := y / 400 in
  let yoe := y - era * 400 in
  let mp := if 2 <? m then m - 3 else m + 9 in
  let doy := (153 * mp + 2) / 5 + d - 1 in
  let doe := yoe * 365 + yoe / 4 - yoe / 100 + doy in
  era * 146097 + doe - 719468.

Definition YearFromTime (t : Z) : Z := fst (fst (civil_from_days (Day t))).
Definition MonthFromTime (t : Z) : Z := snd (fst (civil_from_days (Day t))) - 1.
Definition DateFromTime (t : Z) : Z := snd (civil_from_days (Day t)).

(** TimeClip: a time value beyond 8.64e15 ms is an invalid date. *)
Definition TimeClip (t : Z) : option Z :=
  if Z.abs t <=? 8640000000000000 then Some t else None.

(** [Date.prototype.toISOString]; an invalid date throws a RangeError,
    rendered as [None]. *)
Definition iso_year (y : Z) : string :=
  if (0 <=? y) && (y <=? 9999) then padStart 4 "0" (string_of_nonneg y)
  else (if y <? 0 then "-" else "+") +++ padStart 6 "0" (string_of_nonneg (Z.abs y)).

Definition pad2 (n : Z) : string := padStart 2 "0" (string_of_nonneg n).

Definition toISOString (d : option Z) : option string :=
  match d with
  | None => None
  | Some t =>
      let ms := t mod msPerDay in
      Some (iso_year (YearFromTime t) +++ "-" +++ pad2 (MonthFromTime t + 1) +++ "-"
            +++ pad2 (DateFromTime t) +++ "T" +++ pad2 (ms / 3600000) +++ ":"
            +++ pad2 (ms / 60000 mod 60) +++ ":" +++ pad2 (ms / 1000 mod 60) +++ "."
            +++ padStart 3 "0" (string_of_nonneg (ms mod 1000)) +++ "Z")
  end.

(** Relational comparison of two dates ([<=] on their time values): any
    comparison with NaN is false. *)
Definition date_le (a b : option Z) : bool :=
  match a, b with Some x, Some y => x <=? y | _, _ => false end.

(** ** [Number.prototype.toFixed(2)]

    The integer [n] nearest to [x * 100] (the larger one on a tie) is printed
    with two decimals; a negative [x] gets a leading minus sign. *)
Definition toFixed2 (x : Q) : string :=
  let neg := negb (Qle_bool 0 x) in
  let ax := if neg then Qopp x else x in
  let n := Qfloor (ax * 100 + (1 # 2))%Q in
  let m := padStart 3 "0" (string_of_nonneg n) in
  let k := String.length m in
  (if neg then "-" else "") +++ substring 0 (k - 2)%nat m +++ "." +++ substring (k - 2)%nat 2 m.

(** JavaScript truthiness of a number and of a string. *)
Definition truthy_num (x : Q) : bool := negb (Qeq_bool x 0).
Definition truthy_str (s : string) : bool := negb (String.eqb s "").

(** ** Sorting and plain objects *)

(** A stable insertion sort: [x] goes before the first element it does not
    exceed, so elements that compare equal keep their order, as
    [Array.prototype.sort] guarantees. *)
Fixpoint insert_by {A} (cmp : A -> A -> comparison) (x : A) (l : list A) : list A :=
  match l with
  | [] => [x]
  | y :: r => match cmp x y with Gt => y :: insert_by cmp x r | _ => x :: l end
  end.

Fixpoint sort_by {A} (cmp : A -> A -> comparison) (l : list A) : list A :=
  match l with
  | [] => []
  | x :: r => insert_by cmp x (sort_by cmp r)
  end.

(** [Array.prototype.sort()] with no comparator on an array of strings:
    code-unit order of the strings (all keys here are ASCII). *)
Definition sort_strings (l : list string) : list string := sort_by String.compare l.

(** The same on the [[key, value]] pairs of [Object.entries]: each pair is
    compared through its string form [key + ",[object Object]"]. *)
Definition entry_string {V} (kv : string * V) : string := fst kv +++ ",[object Object]".

Definition sort_entries {V} (l : list (string * V)) : list (string * V) :=
  sort_by (fun a b => String.compare (entry_string a) (entry_string b)) l.

Definition is_digit (c : ascii) : bool :=
  let n := nat_of_ascii c in ((48 <=? n) && (n <=? 57))%nat.

Fixpoint all_digits (s : string) : bool :=
  match s with
  | EmptyString => true
  | String c r => is_digit c && all_digits r
  end.

Definition index_value (k : string) : Z :=
  match take_digits 10 k 0 false with Some n => n | None => 0 end.

(** A property key that is an array index: the canonical decimal form of an
    integer below 2^32 - 1. *)
Definition is_array_index (k : string) : bool :=
  match k with
  | EmptyString => false
  | String c r =>
      all_digits k && (String.eqb k "0" || negb (Ascii.eqb c "0"))
      && (index_value k <? 4294967295)
  end.

(** [Object.entries] of a plain object whose own properties were created in
    the order of [o]: array-index keys first in ascending numeric order, then
    the other keys in creation order. *)
Definition object_entries {V} (o : list (string * V)) : list (string * V) :=
  sort_by (fun a b => Z.compare (index_value (fst a)) (index_value (fst b)))
    (filter (fun kv => is_array_index (fst kv)) o)
  ++ filter (fun kv => negb (is_array_index (fst kv))) o.

(** Members every plain object inherits from [Object.prototype]. *)
Definition object_prototype_members : list string :=
  ["constructor"; "__defineGetter__"; "__defineSetter__"; "hasOwnProperty";
   "__lookupGetter__"; "__lookupSetter__"; "isPrototypeOf";
   "propertyIsEnumerable"; "toString"; "valueOf"; "__proto__"; "toLocaleString"].

(** The accumulator [{ count, savings }] of the breakdown helpers. *)
Record Acc := { count : nat; savings : Q }.

Definition bump (a : Acc) (sv : Q) : Acc :=
  {| count := S (count a); savings := (savings a + sv)%Q |}.

Definition has_own {V} (o : list (string * V)) (k : string) : bool :=
  existsb (fun kv => String.eqb (fst kv) k) o.

(** One iteration of the helpers' [forEach]:
    [if (!breakdown[k]) breakdown[k] = { count: 0, savings: 0 };
     breakdown[k].count++; breakdown[k].savings += sv].
    An own entry is updated in place; a new key gets a fresh entry at the end
    of the creation order; a key naming an inherited member finds that member
    (truthy), so no own entry is created and the increments land on the
    inherited object, outside the breakdown's entries. *)
Fixpoint update_own (o : list (string * Acc)) (k : string) (sv : Q) : list (string * Acc) :=
  match o with
  | [] => []
  | kv :: r => if String.eqb (fst kv) k then (fst kv, bump (snd kv) sv) :: r
               else kv :: update_own r k sv
  end.

Definition add_to_breakdown (o : list (string * Acc)) (k : string) (sv : Q)
  : list (string * Acc) :=
  if has_own o k then update_own o k sv
  else if existsb (String.eqb k) object_prototype_members then o
  else o ++ [(k, bump {| count := 0; savings := 0 |} sv)].

(** ** The data the component receives *)

Record DeletedResource := {
  resource_type : string;
  resource_id : string;
  resource_name : option string;
  deleted_at : string;
  monthly_savings : option Q;
  annual_savings : option Q;
  region : option string
}.

(** [data]: [deleted_resources] and [config.aws_region]; [None] for a field
    that is absent (or for [data] itself being null). *)
Record DashboardData := {
  deleted_resources : option (list DeletedResource);
  config_aws_region : option string
}.

Definition resources_of (data : option DashboardData) : option (list DeletedResource) :=
  match data with Some d => deleted_resources d | None => None end.

Definition config_region_of (data : option DashboardData) : option string :=
  match data with Some d => config_aws_region d | None => None end.

(** [r.monthly_savings || 0] *)
Definition monthly_or_zero (r : DeletedResource) : Q :=
  match monthly_savings r with
  | Some m => if truthy_num m then m else 0%Q
  | None => 0%Q
  end.

(** [r.annual_savings || r.monthly_savings * 12 || 0]; [undefined * 12] is
    NaN, which is falsy. *)
Definition annual_or_fallback (r : DeletedResource) : Q :=
  let fallback :=
    match monthly_savings r with
    | Some m => if truthy_num (m * 12) then (m * 12)%Q else 0%Q
    | None => 0%Q
    end in
  match annual_savings r with
  | Some a => if truthy_num a then a else fallback
  | None => fallback
  end.

(** [a || b] on an optional string and a string. *)
Definition or_str (a : option string) (b : string) : string :=
  match a with Some s => if truthy_str s then s else b | None => b end.

(** ** Output records *)

Record ExportedResource := {
  er_resource_type : string;
  er_resource_id : string;
  er_resource_name : string;
  er_deleted_at : string;
  er_deleted_date_readable : string;
  er_monthly_savings : string;
  er_annual_savings : string;
  er_region : string
}.

Record TypeEntry := {
  te_type : string;
  te_count : nat;
  te_monthly_savings : string;
  te_annual_savings : string
}.

Record MonthEntry := {
  me_month : option string;
  me_year : string;
  me_count : nat;
  me_monthly_savings : string;
  me_annual_savings : string
}.

Record DayEntry := {
  de_date : string;
  de_date_readable : string;
  de_count : nat;
  de_monthly_savings : string
}.

Record ExportInfo := {
  title : string;
  export_date : string;
  info_month : option string;
  info_year : option string;
  range_from : string;
  range_to : string;
  total_resources : nat;
  total_monthly_savings : string;
  total_annual_savings : string
}.

Inductive Summary :=
  | AllTimeSummary (by_type : list TypeEntry) (by_month : list MonthEntry)
  | MonthSummary (by_type : list TypeEntry) (by_day : list DayEntry).

Record ExportDoc := {
  export_info : ExportInfo;
  exported_resources : list ExportedResource;
  summary : Summary
}.

(** What a click handler ends in: an [alert], a [downloadJSON] of a document
    under a file name, or a RangeError thrown by [toISOString]. *)
Inductive Outcome :=
  | Alert (message : string)
  | Download (doc : ExportDoc) (filename : string)
  | ThrowsRangeError.

Definition months : list string :=
  ["January"; "February"; "March"; "April"; "May"; "June"; "July";
   "August"; "September"; "October"; "November"; "December"].

(** [getMonthName(i)] is [months[i]]: [undefined] ([None]) off the array. *)
Definition getMonthName (i : option Z) : option string :=
  match i with
  | Some i => if (0 <=? i) && (i <? 12) then nth_error months (Z.to_nat i) else None
  | None => None
  end.

(** A possibly undefined string inside a template literal. *)
Definition in_template (s : option string) : string :=
  match s with Some s => s | None => "undefined" end.

(** ** The host environment

    What the ECMAScript standard leaves to the implementation: parsing of a
    date string, the local time-zone offset, and locale formatting. *)
Record Host := {
  parse_date : string -> option Z;     (** [Date.parse]; [None] is NaN *)
  LocalTZA_utc : Z -> Z;               (** offset at a UTC time value *)
  LocalTZA_local : Z -> Z;             (** offset at a local time value *)
  locale_string : Z -> string;         (** [toLocaleString] of a valid date *)
  locale_date_string : Z -> string     (** [toLocaleDateString] of a valid date *)
}.

Section Component.

Variable host : Host.

(** [new Date(s)] for a string [s]. *)
Definition new_Date (s : string) : option Z :=
  match parse_date host s with Some t => TimeClip t | None => None end.

Definition LocalTime (t : Z) : Z := t + LocalTZA_utc host t.
Definition UTC (t : Z) : Z := t - LocalTZA_local host t.

Definition getFullYear (d : option Z) : option Z :=
  option_map (fun t => YearFromTime (LocalTime t)) d.

Definition getMonth (d : option Z) : option Z :=
  option_map (fun t => MonthFromTime (LocalTime t)) d.

(** [new Date(year, month, date, hours, minutes, seconds)] in local time:
    a year in 0..99 means 1900..1999; the month may overflow into the year;
    day 0 is the last day of the previous month. *)
Definition new_Date_local (year month : option Z) (date hours minutes seconds : Z)
  : option Z :=
  match year, month with
  | Some y, Some m =>
      let yr := if (0 <=? y) && (y <=? 99) then 1900 + y else y in
      let day := days_from_civil (yr + m / 12) (m mod 12 + 1) 1 + date - 1 in
      let time := hours * 3600000 + minutes * 60000 + seconds * 1000 in
      TimeClip (UTC (day * msPerDay + time))
  | _, _ => None
  end.

Definition js_toLocaleString (d : option Z) : string :=
  match d with Some t => locale_string host t | None => "Invalid Date" end.

Definition js_toLocaleDateString (d : option Z) : string :=
  match d with Some t => locale_date_string host t | None => "Invalid Date" end.

(** The [YYYY-MM] key of a date:
    [`${date.getFullYear()}-${String(date.getMonth() + 1).padStart(2, "0")}`]. *)
Definition month_key (date : option Z) : string :=
  number_to_string (getFullYear date) +++ "-"
  +++ padStart 2 "0" (number_to_string (option_map (fun m => m + 1) (getMonth date))).

Definition resource_month_key (r : DeletedResource) : string :=
  month_key (new_Date (deleted_at r)).

(** The [YYYY-MM-DD] key of a date: [date.toISOString().split("T")[0]]. *)
Definition day_key (date : option Z) : option string :=
  option_map (fun s => nth 0 (split_on "T" s) EmptyString) (toISOString date).

Definition num_eq (a b : option Z) : bool :=
  match a, b with Some x, Some y => x =? y | _, _ => false end.

(** The resources counted on a month's button in the rendered list:
    [d.getFullYear() === parseInt(year) && d.getMonth() === parseInt(month) - 1]. *)
Definition month_button_resources (monthYear : string) (rs : list DeletedResource)
  : list DeletedResource :=
  let parts := split_on "-" monthYear in
  let y := parseInt (nth 0 parts EmptyString) in
  let m := parseInt_opt (nth_error parts 1) in
  filter (fun r => let d := new_Date (deleted_at r) in
                   num_eq (getFullYear d) y
                   && num_eq (getMonth d) (option_map (fun m => m - 1) m)) rs.

(** *** getAvailableMonths *)

Definition set_add (s : list string) (k : string) : list string :=
  if existsb (String.eqb k) s then s else s ++ [k].

Definition getAvailableMonths (data : option DashboardData) : list string :=
  match resources_of data with
  | None | Some [] => []
  | Some rs =>
      let monthsSet := fold_left (fun s r => set_add s (resource_month_key r)) rs [] in
      rev (sort_strings monthsSet)
  end.

(** *** The rendered counters and month buttons *)

(** [const totalResources = data?.deleted_resources?.length || 0]. *)
Definition totalResources (data : option DashboardData) : nat :=
  match resources_of data with Some rs => List.length rs | None => O end.

(** [disabled={totalResources === 0}] on the complete-log button. *)
Definition complete_log_disabled (data : option DashboardData) : bool :=
  Nat.eqb (totalResources data) 0.

(** [availableMonths.length > 0]: whether the month buttons are rendered
    (otherwise "No monthly data available yet" is shown). *)
Definition month_buttons_shown (data : option DashboardData) : bool :=
  negb (Nat.eqb (List.length (getAvailableMonths data)) 0).

(** A value inside JSX: [undefined] renders as nothing. *)
Definition jsx_text (s : option string) : string :=
  match s with Some s => s | None => EmptyString end.

(** The label [{monthName} {year}] of a month button, with
    [const [year, month] = monthYear.split("-")] and
    [const monthName = getMonthName(parseInt(month) - 1)]. *)
Definition month_button_label (monthYear : string) : string :=
  let parts := split_on "-" monthYear in
  let year := nth 0 parts EmptyString in
  let month := nth_error parts 1 in
  jsx_text (getMonthName (option_map (fun m => m - 1) (parseInt_opt month)))
  +++ " " +++ year.

(** [monthResources.reduce((sum, r) => sum + (r.monthly_savings || 0), 0)]. *)
Definition month_button_savings (monthYear : string) (rs : list DeletedResource) : Q :=
  fold_left (fun sum r => (sum + monthly_or_zero r)%Q) (month_button_resources monthYear rs) 0%Q.

(** *** The breakdown helpers *)

(** The object built by a helper's [forEach], as its list of own entries in
    creation order. *)
Definition breakdown_by (key : DeletedResource -> string) (resources : list DeletedResource)
  : list (string * Acc) :=
  fold_left (fun o r => add_to_breakdown o (key r) (monthly_or_zero r)) resources [].

Definition type_entry (kv : string * Acc) : TypeEntry :=
  {| te_type := fst kv;
     te_count := count (snd kv);
     te_monthly_savings := "$" +++ toFixed2 (savings (snd kv));
     te_annual_savings := "$" +++ toFixed2 (savings (snd kv) * 12) |}.

Definition getBreakdownByType (resources : list DeletedResource) : list TypeEntry :=
  map type_entry (object_entries (breakdown_by resource_type resources)).

Definition month_entry (kv : string * Acc) : MonthEntry :=
  let parts := split_on "-" (fst kv) in
  let year := nth 0 parts EmptyString in
  let month := nth_error parts 1 in
  {| me_month := getMonthName (option_map (fun m => m - 1) (parseInt_opt month));
     me_year := year;
     me_count := count (snd kv);
     me_monthly_savings := "$" +++ toFixed2 (savings (snd kv));
     me_annual_savings := "$" +++ toFixed2 (savings (snd kv) * 12) |}.

Definition getBreakdownByMonth (resources : list DeletedResource) : list MonthEntry :=
  map month_entry (sort_entries (object_entries (breakdown_by resource_month_key resources))).

Definition resource_day_key (r : DeletedResource) : string :=
  match day_key (new_Date (deleted_at r)) with Some k => k | None => EmptyString end.

Definition day_entry (kv : string * Acc) : DayEntry :=
  {| de_date := fst kv;
     de_date_readable := js_toLocaleDateString (new_Date (fst kv));
     de_count := count (snd kv);
     de_monthly_savings := "$" +++ toFixed2 (savings (snd kv)) |}.

(** [toISOString] throws on the first invalid date, so the helper returns
    only when every date is valid. *)
Definition getBreakdownByDay (resources : list DeletedResource) : option (list DayEntry) :=
  if forallb (fun r => match day_key (new_Date (deleted_at r)) with
                       | Some _ => true | None => false end) resources
  then Some (map day_entry (sort_entries (object_entries (breakdown_by resource_day_key resources))))
  else None.

(** *** Totals and exported records *)

Definition total_monthly (resources : list DeletedResource) : Q :=
  fold_left (fun sum r => (sum + monthly_or_zero r)%Q) resources 0%Q.

Definition total_annual (resources : list DeletedResource) : Q :=
  fold_left (fun sum r => (sum + annual_or_fallback r)%Q) resources 0%Q.

Definition resolve_region (data : option DashboardData) (r : DeletedResource) : string :=
  or_str (region r) (or_str (config_region_of data) "us-east-1").

Definition export_resource (data : option DashboardData) (r : DeletedResource)
  : ExportedResource :=
  {| er_resource_type := resource_type r;
     er_resource_id := resource_id r;
     er_resource_name := or_str (resource_name r) "Unnamed";
     er_deleted_at := deleted_at r;
     er_deleted_date_readable := js_toLocaleString (new_Date (deleted_at r));
     er_monthly_savings := "$" +++ toFixed2 (monthly_or_zero r);
     er_annual_savings := "$" +++ toFixed2 (annual_or_fallback r);
     er_region := resolve_region data r |}.

Definition formatDate (d : option Z) : option string := day_key d.

Definition no_data_message : string := "No deleted resources data available to download.".

(** *** downloadAllLogs *)

Definition filter_up_to (currentDate : Z) (resources : list DeletedResource)
  : list DeletedResource :=
  filter (fun r => date_le (new_Date (deleted_at r)) (Some currentDate)) resources.

(** [filteredResources[filteredResources.length - 1]]: the last element. *)
Definition range_from_all (currentDate : Z) (filtered : list DeletedResource)
  : option string :=
  match rev filtered with
  | r :: _ => toISOString (new_Date (deleted_at r))
  | [] => toISOString (Some currentDate)
  end.

Definition downloadAllLogs (currentDate : Z) (data : option DashboardData) : Outcome :=
  match resources_of data with
  | None | Some [] => Alert no_data_message
  | Some rs =>
      let filtered := filter_up_to currentDate rs in
      match toISOString (Some currentDate), range_from_all currentDate filtered,
            formatDate (Some currentDate) with
      | Some now_iso, Some from, Some today =>
          Download
            {| export_info :=
                 {| title := "CostGuardian - Complete Deletion Log";
                    export_date := now_iso;
                    info_month := None;
                    info_year := None;
                    range_from := from;
                    range_to := now_iso;
                    total_resources := List.length filtered;
                    total_monthly_savings := toFixed2 (total_monthly filtered);
                    total_annual_savings := toFixed2 (total_annual filtered) |};
               exported_resources := map (export_resource data) filtered;
               summary := AllTimeSummary (getBreakdownByType filtered)
                                         (getBreakdownByMonth filtered) |}
            ("costguardian-complete-log-" +++ today +++ ".json")
      | _, _, _ => ThrowsRangeError
      end
  end.

(** *** downloadMonthLog *)

Definition month_window (monthYear : string) : option Z * option Z :=
  let parts := split_on "-" monthYear in
  let y := parseInt (nth 0 parts EmptyString) in
  let m := parseInt_opt (nth_error parts 1) in
  (new_Date_local y (option_map (fun m => m - 1) m) 1 0 0 0,
   new_Date_local y m 0 23 59 59).

Definition filter_month (monthYear : string) (resources : list DeletedResource)
  : list DeletedResource :=
  let '(startDate, endDate) := month_window monthYear in
  filter (fun r => let d := new_Date (deleted_at r) in
                   date_le startDate d && date_le d endDate) resources.

Definition downloadMonthLog (now : Z) (data : option DashboardData) (monthYear : string)
  : Outcome :=
  match resources_of data with
  | None | Some [] => Alert no_data_message
  | Some rs =>
      let parts := split_on "-" monthYear in
      let year := nth 0 parts EmptyString in
      let month := nth_error parts 1 in
      let monthName := getMonthName (option_map (fun m => m - 1) (parseInt_opt month)) in
      let '(startDate, endDate) := month_window monthYear in
      match filter_month monthYear rs with
      | [] => Alert ("No resources deleted in " +++ in_template monthName +++ " "
                     +++ year +++ ".")
      | filtered =>
          match toISOString (Some now), toISOString startDate, toISOString endDate,
                getBreakdownByDay filtered with
          | Some now_iso, Some from, Some to, Some by_day =>
              Download
                {| export_info :=
                     {| title := "CostGuardian - " +++ in_template monthName +++ " "
                                 +++ year +++ " Deletion Log";
                        export_date := now_iso;
                        info_month := monthName;
                        info_year := Some year;
                        range_from := from;
                        range_to := to;
                        total_resources := List.length filtered;
                        total_monthly_savings := toFixed2 (total_monthly filtered);
                        total_annual_savings := toFixed2 (total_annual filtered) |};
                   exported_resources := map (export_resource data) filtered;
                   summary := MonthSummary (getBreakdownByType filtered) by_day |}
                ("costguardian-" +++ year +++ "-" +++ in_template month +++ "-log.json")
          | _, _, _, _ => ThrowsRangeError
          end
      end
  end.

End Component.

(** ** A concrete host for runs on sample inputs

    UTC as local time; [Date.parse] of the ISO forms [YYYY-MM-DD],
    [YYYY-MM-DDTHH:MM:SSZ] and [YYYY-MM-DDTHH:MM:SS.sssZ]. *)
Definition iso_field (s : string) (i n : nat) : option Z :=
  let f := substring i n s in
  if all_digits f then parseInt f else None.

Definition parse_iso_utc (s : string) : option Z :=
  match iso_field s 0 4, iso_field s 5 2, iso_field s 8 2 with
  | Some y, Some mo, Some d =>
      let day := days_from_civil y mo d in
      if (String.length s =? 10)%nat then Some (day * msPerDay)
      else
        match iso_field s 11 2, iso_field s 14 2, iso_field s 17 2 with
        | Some h, Some mi, Some sec =>
            let ms := if (String.length s =? 24)%nat then iso_field s 20 3
                      else if (String.length s =? 20)%nat then Some 0 else None in
            option_map (fun ms => day * msPerDay + h * 3600000 + mi * 60000
                                  + sec * 1000 + ms) ms
        | _, _, _ => None
        end
  | _, _, _ => None
  end.

Definition iso_or_empty (t : Z) : string :=
  match toISOString (Some t) with Some s => s | None => EmptyString end.

Definition utc_host : Host :=
  {| parse_date := parse_iso_utc;
     LocalTZA_utc := fun _ => 0;
     LocalTZA_local := fun _ => 0;
     locale_string := iso_or_empty;
     locale_date_string := iso_or_empty |}.

(** A deletion record with the fields the dashboard's data carries. *)
Definition ev (ty id at_ : string) (m : Q) : DeletedResource :=
  {| resource_type := ty; resource_id := id; resource_name := None;
     deleted_at := at_; monthly_savings := Some m; annual_savings := None;
     region := None |}.

Definition sample_data (rs : list DeletedResource) : option DashboardData :=
  Some {| deleted_resources := Some rs; config_aws_region := Some "us-west-2" |}.

Definition sample_now : Z :=
  Eval vm_compute in match parse_iso_utc "2025-12-01T00:00:00Z" with
                     | Some t => t | None => 0 end.

(** ** Notions used in the statements *)

(** The region of an exported record as the documentation words it: the
    resource's own region if it is a non-empty string, else the configured
    region if that is a non-empty string, else ["us-east-1"]. *)
Definition documented_region (own configured : option string) : string :=
  match own with
  | Some s => if String.eqb s "" then
                match configured with
                | Some c => if String.eqb c "" then "us-east-1" else c
                | None => "us-east-1"
                end
              else s
  | None => match configured with
            | Some c => if String.eqb c "" then "us-east-1" else c
            | None => "us-east-1"
            end
  end.

(** The record's date is valid and falls in a year [>= 0] of local time:
    its month key then starts with the digits of the year. *)
Definition dated_ce (host : Host) (r : DeletedResource) : bool :=
  match new_Date host (deleted_at r) with
  | Some t => 0 <=? YearFromTime (LocalTime host t)
  | None => false
  end.

(** Sum of the monthly savings of the resources whose [key] is [k]. *)
Definition group_sum (key : DeletedResource -> string) (k : string)
  (rs : list DeletedResource) : Q :=
  fold_right (fun r s => if String.eqb (key r) k then (monthly_or_zero r + s)%Q else s)
    0%Q rs.

(** Number of the resources whose [key] is [k]. *)
Definition group_count (key : DeletedResource -> string) (k : string)
  (rs : list DeletedResource) : nat :=
  List.length (filter (fun r => String.eqb (key r) k) rs).

(** The entries behind [summary.by_month], listed in output order: their keys
    are distinct and are exactly the month keys of the events, and each entry
    counts and sums the events of its month. *)
Definition month_groups (host : Host) (rs : list DeletedResource)
  (l : list (string * Acc)) : Prop :=
  NoDup (map fst l) /\
  (forall k, In k (map fst l) <-> exists r, In r rs /\ resource_month_key host r = k) /\
  (forall kv, In kv l ->
     count (snd kv) = group_count (resource_month_key host) (fst kv) rs /\
     (savings (snd kv) == group_sum (resource_month_key host) (fst kv) rs)%Q).

(** The distinct strings of a list in order of first occurrence. *)
Definition first_occurrences (l : list string) : list string := fold_left set_add l [].

(** Ascending and strictly descending string order. *)
Definition str_le (a b : string) : Prop := String.compare a b <> Gt.
Definition str_gt (a b : string) : Prop := String.compare a b = Gt.

(** The resources are listed newest first. *)
Definition newest_first (host : Host) (rs : list DeletedResource) : Prop :=
  Sorted (fun a b => date_le (new_Date host (deleted_at b)) (new_Date host (deleted_at a))
                     = true) rs.

Fixpoint all_chars (p : ascii -> bool) (s : string) : bool :=
  match s with
  | EmptyString => true
  | String c r => p c && all_chars p r
  end.

(** Every character is above [","] (code 44), the first character of the
    suffix [",[object Object]"] that [entry_string] appends. *)
Definition above_comma (s : string) : bool :=
  all_chars (fun c => (44 <? nat_of_ascii c)%nat) s.

(** A non-empty key whose characters after the first are above [","]. *)
Definition key_ok (k : string) : Prop :=
  match k with
  | EmptyString => False
  | String _ r => above_comma r = true
  end.

Definition date_char (c : ascii) : bool := is_digit c || Ascii.eqb c "-".

(** The characters that month and day keys are made of. *)
Definition key_char (c : ascii) : bool :=
  is_digit c || Ascii.eqb c "-" || Ascii.eqb c "+" || Ascii.eqb c "N" || Ascii.eqb c "a".

Definition sum_counts (o : list (string * Acc)) : nat :=
  list_sum (map (fun kv => count (snd kv)) o).

(** * Proofs *)

(** ** String order *)

Lemma ascii_compare_refl (a : ascii) : Ascii.compare a a = Eq.
Proof. unfold Ascii.compare. apply N.compare_refl. Qed.

Lemma string_compare_refl (s : string) : String.compare s s = Eq.
Proof. induction s; simpl; auto. now rewrite ascii_compare_refl. Qed.

Lemma ascii_compare_lt_trans a b c :
  Ascii.compare a b = Lt -> Ascii.compare b c = Lt -> Ascii.compare a c = Lt.
Proof. unfold Ascii.compare. rewrite !N.compare_lt_iff. lia. Qed.

Lemma string_compare_lt_trans : forall s1 s2 s3,
  String.compare s1 s2 = Lt -> String.compare s2 s3 = Lt -> String.compare s1 s3 = Lt.
Proof.
  induction s1 as [|a1 r1 IH]; intros [|a2 r2] [|a3 r3]; simpl; try discriminate; auto.
  destruct (Ascii.compare a1 a2) eqn:E12; try discriminate;
  destruct (Ascii.compare a2 a3) eqn:E23; try discriminate; intros H1 H2.
  - apply Ascii.compare_eq_iff in E12, E23; subst.
    rewrite ascii_compare_refl. eauto.
  - apply Ascii.compare_eq_iff in E12; subst. now rewrite E23.
  - apply Ascii.compare_eq_iff in E23; subst. now rewrite E12.
  - now rewrite (ascii_compare_lt_trans _ _ _ E12 E23).
Qed.

Lemma str_le_trans a b c : str_le a b -> str_le b c -> str_le a c.
Proof.
  unfold str_le.
  destruct (String.compare a b) eqn:Eab; try congruence;
  destruct (String.compare b c) eqn:Ebc; try congruence; intros _ _.
  - apply String.compare_eq_iff in Eab, Ebc; subst. now rewrite string_compare_refl.
  - apply String.compare_eq_iff in Eab; subst. now rewrite Ebc.
  - apply String.compare_eq_iff in Ebc; subst. now rewrite Eab.
  - now rewrite (string_compare_lt_trans _ _ _ Eab Ebc).
Qed.

Lemma str_le_gt_flip a b : String.compare a b = Gt -> str_le b a.
Proof. unfold str_le. intros H. rewrite String.compare_antisym, H. discriminate. Qed.

(** ** The insertion sort *)

Section SortBy.
Context {A : Type} (cmp : A -> A -> comparison).

Lemma insert_by_perm x l : Permutation (insert_by cmp x l) (x :: l).
Proof.
  induction l as [|y r IH]; simpl; auto.
  destruct (cmp x y); auto.
  rewrite IH. apply perm_swap.
Qed.

Lemma sort_by_perm l : Permutation (sort_by cmp l) l.
Proof.
  induction l as [|x r IH]; simpl; auto.
  rewrite insert_by_perm. now apply perm_skip.
Qed.

Hypothesis cmp_gt_flip : forall x y, cmp x y = Gt -> cmp y x <> Gt.

Let le_by (x y : A) : Prop := cmp x y <> Gt.

Lemma insert_by_hd z x l :
  HdRel le_by z l -> le_by z x -> HdRel le_by z (insert_by cmp x l).
Proof.
  destruct l as [|y r]; simpl; intros Hd Hzx; auto.
  destruct (cmp x y); auto; inversion Hd; auto.
Qed.

Lemma insert_by_sorted x l : Sorted le_by l -> Sorted le_by (insert_by cmp x l).
Proof.
  induction 1 as [|y r Hs IH Hd]; simpl; auto.
  destruct (cmp x y) eqn:E.
  - constructor; auto. constructor. unfold le_by. now rewrite E.
  - constructor; auto. constructor. unfold le_by. now rewrite E.
  - constructor; auto. apply insert_by_hd; auto. now apply cmp_gt_flip.
Qed.

Lemma sort_by_sorted l : Sorted le_by (sort_by cmp l).
Proof. induction l; simpl; auto using insert_by_sorted. Qed.

End SortBy.

Lemma Sorted_weaken {A} (P : A -> Prop) (R R' : A -> A -> Prop) l :
  (forall a b, P a -> P b -> R a b -> R' a b) ->
  Forall P l -> Sorted R l -> Sorted R' l.
Proof.
  intros Himp HP HS. induction HS as [|a r HS IH Hd]; constructor.
  - inversion HP; auto.
  - inversion HP as [|? ? Pa Pr]; subst.
    destruct Hd as [|b r' Rab]; constructor.
    inversion Pr; auto.
Qed.

(** ** [Object.entries] lists each own entry once *)

Lemma filter_split_perm {A} (f : A -> bool) l :
  Permutation l (filter f l ++ filter (fun x => negb (f x)) l).
Proof.
  induction l as [|x r IH]; simpl; auto.
  destruct (f x); simpl.
  - now apply perm_skip.
  - rewrite IH at 1. apply Permutation_middle.
Qed.

Lemma object_entries_perm {V} (o : list (string * V)) : Permutation (object_entries o) o.
Proof.
  unfold object_entries.
  rewrite sort_by_perm. symmetry. apply filter_split_perm.
Qed.

(** Without array-index keys the entries come in creation order. *)
Lemma object_entries_no_index {V} (o : list (string * V)) :
  forallb (fun kv => negb (is_array_index (fst kv))) o = true ->
  object_entries o = o.
Proof.
  unfold object_entries. intros H.
  assert (E1 : filter (fun kv => is_array_index (fst kv)) o = []).
  { induction o as [|kv r IH]; simpl in *; auto.
    apply andb_prop in H as [H1 H2]. destruct (is_array_index (fst kv)); [simpl in H1; discriminate|auto]. }
  assert (E2 : filter (fun kv => negb (is_array_index (fst kv))) o = o).
  { clear E1. induction o as [|kv r IH]; simpl in *; auto.
    apply andb_prop in H as [H1 H2]. rewrite H1. f_equal. auto. }
  now rewrite E1, E2.
Qed.

(** ** Comparing the string forms of entries *)

Lemma entry_compare_key_aux : forall k1 k2,
  above_comma k1 = true ->
  String.compare (k1 +++ ",[object Object]") (k2 +++ ",[object Object]") <> Gt ->
  String.compare k1 k2 <> Gt.
Proof.
  induction k1 as [|c1 r1 IH]; intros [|c2 r2] Ha H; simpl in *.
  - discriminate.
  - discriminate.
  - apply andb_prop in Ha as [Hc _]. apply Nat.ltb_lt in Hc.
    exfalso. apply H. unfold nat_of_ascii in Hc. unfold Ascii.compare.
    change (N_of_ascii ",") with 44%N.
    replace (N_of_ascii c1 ?= 44)%N with Gt; [reflexivity|].
    symmetry. apply N.compare_gt_iff. lia.
  - apply andb_prop in Ha as [_ Hr].
    destruct (Ascii.compare c1 c2); auto.
Qed.

Lemma entry_compare_key {V} (a b : string * V) :
  key_ok (fst a) -> key_ok (fst b) ->
  String.compare (entry_string a) (entry_string b) <> Gt ->
  String.compare (fst a) (fst b) <> Gt.
Proof.
  unfold entry_string. destruct a as [k1 va], b as [k2 vb]; simpl.
  destruct k1 as [|c1 r1]; destruct k2 as [|c2 r2]; simpl; intros H1 H2 H; try contradiction.
  destruct (Ascii.compare c1 c2); auto.
  now apply entry_compare_key_aux.
Qed.

(** ** Characters of the generated keys *)

Lemma all_chars_app p a b : all_chars p (a +++ b) = all_chars p a && all_chars p b.
Proof. induction a; simpl; auto. rewrite IHa. apply andb_assoc. Qed.

Lemma all_chars_impl (p q : ascii -> bool) s :
  (forall c, p c = true -> q c = true) -> all_chars p s = true -> all_chars q s = true.
Proof.
  intros Hpq. induction s as [|c r IH]; simpl; auto.
  intros H. apply andb_prop in H as [H1 H2]. rewrite (Hpq c H1). auto.
Qed.

Lemma digit_char_is_digit d : 0 <= d < 10 -> is_digit (digit_char d) = true.
Proof.
  intros Hd. unfold is_digit, digit_char.
  rewrite nat_ascii_embedding by lia.
  apply andb_true_intro; split; apply Nat.leb_le; lia.
Qed.

Lemma digits_fuel_digits f n acc :
  all_chars is_digit acc = true -> all_chars is_digit (digits_fuel f n acc) = true.
Proof.
  revert n acc. induction f as [|f IH]; intros n acc Hacc; cbn [digits_fuel]; auto.
  assert (Hd : is_digit (digit_char (n mod 10)) = true)
    by (apply digit_char_is_digit; apply Z.mod_pos_bound; lia).
  destruct (n <? 10).
  - cbn [all_chars]. now rewrite Hd.
  - apply IH. cbn [all_chars]. now rewrite Hd.
Qed.

Lemma digits_fuel_nonempty f n acc :
  acc <> EmptyString -> digits_fuel f n acc <> EmptyString.
Proof.
  revert n acc. induction f as [|f IH]; intros n acc Hacc; cbn [digits_fuel]; auto.
  destruct (n <? 10); [discriminate|]. apply IH. discriminate.
Qed.

Lemma string_of_nonneg_digits n : all_chars is_digit (string_of_nonneg n) = true.
Proof. apply digits_fuel_digits. reflexivity. Qed.

Lemma string_of_nonneg_nonempty n : string_of_nonneg n <> EmptyString.
Proof.
  unfold string_of_nonneg. cbn [digits_fuel].
  destruct (n <? 10); [discriminate|]. apply digits_fuel_nonempty. discriminate.
Qed.

Lemma repeat_char_all p n c : p c = true -> all_chars p (repeat_char n c) = true.
Proof. intros Hc. induction n; simpl; auto. now rewrite Hc. Qed.

Lemma padStart_all p n c s :
  p c = true -> all_chars p s = true -> all_chars p (padStart n c s) = true.
Proof.
  intros Hc Hs. unfold padStart. rewrite all_chars_app, Hs, repeat_char_all; auto.
Qed.

Lemma padStart_nonempty n c s : s <> EmptyString -> padStart n c s <> EmptyString.
Proof.
  unfold padStart. intros Hs. destruct (repeat_char _ c); simpl; auto. discriminate.
Qed.

Lemma digit_above_comma c : is_digit c = true -> (44 <? nat_of_ascii c)%nat = true.
Proof.
  unfold is_digit. intros H. apply andb_prop in H as [H _].
  apply Nat.leb_le in H. apply Nat.ltb_lt. lia.
Qed.

Lemma digits_above_comma s : all_chars is_digit s = true -> above_comma s = true.
Proof. apply all_chars_impl, digit_above_comma. Qed.

Lemma number_to_string_above x : above_comma (number_to_string x) = true.
Proof.
  unfold number_to_string. destruct x as [n|]; [|reflexivity].
  destruct (n <? 0); [unfold above_comma; simpl|];
  apply digits_above_comma, string_of_nonneg_digits.
Qed.

Lemma number_to_string_nonempty x : number_to_string x <> EmptyString.
Proof.
  unfold number_to_string. destruct x as [n|]; [|discriminate].
  destruct (n <? 0); [discriminate|]. apply string_of_nonneg_nonempty.
Qed.

Lemma key_ok_of_above k : k <> EmptyString -> above_comma k = true -> key_ok k.
Proof.
  destruct k as [|c r]; simpl; [contradiction|].
  intros _ H. unfold above_comma in H. simpl in H. now apply andb_prop in H as [_ H].
Qed.

Lemma str_app_assoc a b c : (a +++ b) +++ c = a +++ (b +++ c).
Proof. induction a; simpl; f_equal; auto. Qed.

Lemma str_app_nonempty_l a b : a <> EmptyString -> a +++ b <> EmptyString.
Proof. destruct a; simpl; [contradiction|discriminate]. Qed.

Lemma number_to_string_key_chars x : all_chars key_char (number_to_string x) = true.
Proof.
  unfold number_to_string. destruct x as [n|]; [|reflexivity].
  assert (H : forall m, all_chars key_char (string_of_nonneg m) = true).
  { intros m. eapply all_chars_impl; [|apply string_of_nonneg_digits].
    intros c Hc. unfold key_char. now rewrite Hc. }
  destruct (n <? 0); auto. cbn [String.append all_chars]. now rewrite H.
Qed.

Lemma month_key_shape host d :
  key_ok (month_key host d) /\ all_chars key_char (month_key host d) = true.
Proof.
  unfold month_key. split.
  - apply key_ok_of_above.
    + apply str_app_nonempty_l, number_to_string_nonempty.
    + unfold above_comma. rewrite !all_chars_app.
      fold (above_comma (number_to_string (getFullYear host d))).
      rewrite number_to_string_above. cbn [all_chars andb].
      apply padStart_all; [reflexivity|apply number_to_string_above].
  - rewrite !all_chars_app, !number_to_string_key_chars. cbn [all_chars andb].
    apply padStart_all; [reflexivity|apply number_to_string_key_chars].
Qed.

(** *** The date part of [toISOString] *)

Lemma split_on_nonempty sep s : split_on sep s <> [].
Proof.
  induction s as [|c r IH]; simpl; [discriminate|].
  destruct (Ascii.eqb c sep); [discriminate|].
  destruct (split_on sep r); discriminate.
Qed.

Lemma split_on_first sep a b :
  all_chars (fun c => negb (Ascii.eqb c sep)) a = true ->
  nth 0 (split_on sep (a +++ String sep b)) EmptyString = a.
Proof.
  induction a as [|c r IH]; intros Ha.
  - simpl. now rewrite Ascii.eqb_refl.
  - cbn [all_chars] in Ha. apply andb_prop in Ha as [Hc Hr].
    apply negb_true_iff in Hc.
    cbn [String.append split_on]. rewrite Hc.
    specialize (IH Hr). pose proof (split_on_nonempty sep (r +++ String sep b)) as Hne.
    destruct (split_on sep (r +++ String sep b)) as [|p ps]; [contradiction|].
    simpl in IH |- *. now subst.
Qed.

Definition iso_char (c : ascii) : bool := date_char c || Ascii.eqb c "+".

Lemma digits_date_chars s : all_chars is_digit s = true -> all_chars date_char s = true.
Proof. apply all_chars_impl. intros c Hc. unfold date_char. now rewrite Hc. Qed.

Lemma pad_digits_shape n k :
  exists c r, padStart n "0" (string_of_nonneg k) = String c r /\
              is_digit c = true /\ all_chars is_digit r = true.
Proof.
  assert (Hd : all_chars is_digit (padStart n "0" (string_of_nonneg k)) = true)
    by (apply padStart_all; [reflexivity|apply string_of_nonneg_digits]).
  pose proof (padStart_nonempty n "0" _ (string_of_nonneg_nonempty k)) as Hne.
  destruct (padStart n "0" (string_of_nonneg k)) as [|c r]; [contradiction|].
  cbn [all_chars] in Hd. apply andb_prop in Hd as [H1 H2]. eauto.
Qed.

Lemma iso_year_shape y :
  exists c r, iso_year y = String c r /\ iso_char c = true /\ all_chars date_char r = true.
Proof.
  unfold iso_year. destruct ((0 <=? y) && (y <=? 9999)).
  - destruct (pad_digits_shape 4 y) as (c & r & -> & Hc & Hr).
    exists c, r. split; [reflexivity|]. split.
    + unfold iso_char, date_char. now rewrite Hc.
    + now apply digits_date_chars.
  - exists (if y <? 0 then "-"%char else "+"%char), (padStart 6 "0" (string_of_nonneg (Z.abs y))).
    split; [destruct (y <? 0); reflexivity|]. split; [destruct (y <? 0); reflexivity|].
    apply digits_date_chars, padStart_all; [reflexivity|apply string_of_nonneg_digits].
Qed.

Lemma date_char_above c : date_char c = true -> (44 <? nat_of_ascii c)%nat = true.
Proof.
  unfold date_char. intros H. apply orb_prop in H as [H|H].
  - now apply digit_above_comma.
  - apply Ascii.eqb_eq in H. now subst.
Qed.

Lemma iso_char_key c : iso_char c = true -> key_char c = true.
Proof.
  unfold iso_char, date_char, key_char. intros H.
  repeat (apply orb_prop in H as [H|H]); rewrite H; now rewrite ?orb_true_r.
Qed.

Lemma date_char_key c : date_char c = true -> key_char c = true.
Proof. intros H. apply iso_char_key. unfold iso_char. now rewrite H. Qed.

Lemma iso_char_not_T c : iso_char c = true -> negb (Ascii.eqb c "T") = true.
Proof.
  intros H. destruct (Ascii.eqb_spec c "T"); [subst; discriminate H|reflexivity].
Qed.

Lemma pad2_date_chars n : all_chars date_char (pad2 n) = true.
Proof.
  apply digits_date_chars, padStart_all; [reflexivity|apply string_of_nonneg_digits].
Qed.

Lemma split_T_date a b c R :
  all_chars iso_char (a +++ "-" +++ b +++ "-" +++ c) = true ->
  nth 0 (split_on "T" (a +++ "-" +++ b +++ "-" +++ c +++ "T" +++ R)) EmptyString
  = a +++ "-" +++ b +++ "-" +++ c.
Proof.
  intros H.
  replace (a +++ "-" +++ b +++ "-" +++ c +++ "T" +++ R)
    with ((a +++ "-" +++ b +++ "-" +++ c) +++ String "T" R)
    by (rewrite !str_app_assoc; reflexivity).
  apply split_on_first. eapply all_chars_impl; [|exact H]. apply iso_char_not_T.
Qed.

Lemma day_key_shape t :
  exists k, day_key (Some t) = Some k /\ key_ok k /\ all_chars key_char k = true.
Proof.
  destruct (iso_year_shape (YearFromTime t)) as (c & r & Hy & Hc & Hr).
  assert (Hrest : all_chars date_char
            (r +++ "-" +++ pad2 (MonthFromTime t + 1) +++ "-" +++ pad2 (DateFromTime t))
          = true).
  { rewrite !all_chars_app, Hr, !pad2_date_chars. reflexivity. }
  unfold day_key, toISOString. cbn [option_map].
  rewrite split_T_date.
  2:{ rewrite Hy. cbn [String.append all_chars]. rewrite Hc. cbn [andb].
      eapply all_chars_impl; [|exact Hrest].
      intros x Hx. unfold iso_char. now rewrite Hx. }
  eexists; split; [reflexivity|]. rewrite Hy. cbn [String.append]. split.
  - unfold key_ok, above_comma. eapply all_chars_impl; [|exact Hrest]. apply date_char_above.
  - cbn [all_chars]. rewrite (iso_char_key _ Hc). cbn [andb].
    eapply all_chars_impl; [|exact Hrest]. apply date_char_key.
Qed.

(** A key made of digits, signs and [NaN] is no member of [Object.prototype]. *)
Lemma key_chars_not_proto k :
  all_chars key_char k = true -> existsb (String.eqb k) object_prototype_members = false.
Proof.
  intros Hk. apply Bool.not_true_iff_false. intros Hin.
  apply existsb_exists in Hin as (m & Hm & Heq). apply String.eqb_eq in Heq. subst m.
  simpl in Hm.
  repeat (destruct Hm as [Hm|Hm]; [subst k; discriminate Hk|]). contradiction.
Qed.

(** ** The breakdown object *)

Section Breakdown.
Variable key : DeletedResource -> string.

Let step (o : list (string * Acc)) (r : DeletedResource) : list (string * Acc) :=
  add_to_breakdown o (key r) (monthly_or_zero r).

Lemma has_own_in {V} (o : list (string * V)) k : has_own o k = true <-> In k (map fst o).
Proof.
  unfold has_own. rewrite existsb_exists. split.
  - intros (kv & Hin & Heq). apply String.eqb_eq in Heq. subst. now apply in_map.
  - intros Hin. apply in_map_iff in Hin as (kv & <- & Hin).
    exists kv. split; auto. apply String.eqb_refl.
Qed.

Lemma update_own_keys o k sv : map fst (update_own o k sv) = map fst o.
Proof.
  induction o as [|[k' a] r IH]; simpl; auto.
  destruct (String.eqb k' k); simpl; f_equal; auto.
Qed.

Lemma add_keys o k sv x :
  In x (map fst (add_to_breakdown o k sv)) -> In x (map fst o) \/ x = k.
Proof.
  unfold add_to_breakdown.
  destruct (has_own o k); [rewrite update_own_keys; auto|].
  destruct (existsb (String.eqb k) object_prototype_members); auto.
  rewrite map_app, in_app_iff. simpl. intuition.
Qed.

Lemma breakdown_keys_from rs o x :
  In x (map fst (fold_left step rs o)) ->
  In x (map fst o) \/ exists r, In r rs /\ x = key r.
Proof.
  revert o. induction rs as [|r rs IH]; simpl; intros o H; auto.
  apply IH in H as [H|(r' & Hr' & ->)].
  - apply add_keys in H as [H| ->]; auto. right. exists r. auto.
  - right. exists r'. auto.
Qed.

Lemma breakdown_keys rs x :
  In x (map fst (breakdown_by key rs)) -> exists r, In r rs /\ x = key r.
Proof.
  intros H. apply breakdown_keys_from in H as [H|H]; [contradiction|exact H].
Qed.

(** *** Counts *)

Lemma sum_counts_update o k sv :
  has_own o k = true -> sum_counts (update_own o k sv) = S (sum_counts o).
Proof.
  unfold sum_counts. induction o as [|[k' a] r IH]; simpl; [discriminate|].
  destruct (String.eqb k' k) eqn:E; simpl; intros H; [reflexivity|].
  rewrite IH; [lia|exact H].
Qed.

Lemma sum_counts_add o k sv :
  existsb (String.eqb k) object_prototype_members = false ->
  sum_counts (add_to_breakdown o k sv) = S (sum_counts o).
Proof.
  intros Hk. unfold add_to_breakdown.
  destruct (has_own o k) eqn:E; [now apply sum_counts_update|].
  rewrite Hk. unfold sum_counts. rewrite map_app, list_sum_app. simpl. lia.
Qed.

Lemma sum_counts_breakdown_from rs o :
  (forall r, In r rs -> existsb (String.eqb (key r)) object_prototype_members = false) ->
  sum_counts (fold_left step rs o) = (sum_counts o + List.length rs)%nat.
Proof.
  revert o. induction rs as [|r rs IH]; simpl; intros o Hk; [lia|].
  rewrite IH by (intros; apply Hk; now right).
  unfold step. rewrite sum_counts_add by (apply Hk; now left). lia.
Qed.

Lemma sum_counts_breakdown rs :
  (forall r, In r rs -> existsb (String.eqb (key r)) object_prototype_members = false) ->
  sum_counts (breakdown_by key rs) = List.length rs.
Proof. intros Hk. unfold breakdown_by. now rewrite sum_counts_breakdown_from. Qed.

Lemma sum_counts_perm o o' : Permutation o o' -> sum_counts o = sum_counts o'.
Proof. intros H. unfold sum_counts. now rewrite H. Qed.

End Breakdown.

(** *** Savings per group *)

Section GroupSums.
Variable key : DeletedResource -> string.

Let step (o : list (string * Acc)) (r : DeletedResource) : list (string * Acc) :=
  add_to_breakdown o (key r) (monthly_or_zero r).

Lemma group_sum_snoc k l r :
  (group_sum key k (l ++ [r]) ==
   group_sum key k l + (if String.eqb (key r) k then monthly_or_zero r else 0))%Q.
Proof.
  induction l as [|a l IH]; simpl.
  - destruct (String.eqb (key r) k); ring.
  - destruct (String.eqb (key a) k); rewrite IH; ring.
Qed.

Lemma group_sum_none k l :
  (forall r, In r l -> key r <> k) -> (group_sum key k l == 0)%Q.
Proof.
  induction l as [|a l IH]; simpl; intros H; [reflexivity|].
  destruct (String.eqb_spec (key a) k) as [E|E].
  - exfalso. apply (H a); auto.
  - apply IH. intros r Hr. apply H. auto.
Qed.

Lemma update_own_entries o k sv kv :
  NoDup (map fst o) -> In kv (update_own o k sv) ->
  (fst kv = k /\ exists a, In (k, a) o /\ snd kv = bump a sv) \/
  (fst kv <> k /\ In kv o).
Proof.
  induction o as [|[k' a] r IH]; simpl; [contradiction|].
  intros Hnd Hin. inversion Hnd as [|? ? Hk' Hnd']; subst.
  destruct (String.eqb_spec k' k) as [->|Ne].
  - destruct Hin as [<-|Hin].
    + left. simpl. split; auto. exists a. auto.
    + right. split; auto. intros E. apply Hk'. rewrite <- E. now apply in_map.
  - destruct Hin as [<-|Hin].
    + right. simpl. auto.
    + destruct (IH Hnd' Hin) as [(E & a' & Ha' & Hs)|(E & Hkv)].
      * left. split; auto. exists a'. auto.
      * right. auto.
Qed.

(** The invariant of the [forEach] after the resources [done_] were added:
    keys are distinct, each entry holds the sum of its group, and every
    resource whose key is not inherited has an own entry. *)
Definition group_inv (done_ : list DeletedResource) (o : list (string * Acc)) : Prop :=
  NoDup (map fst o) /\
  (forall kv, In kv o -> (savings (snd kv) == group_sum key (fst kv) done_)%Q) /\
  (forall r, In r done_ ->
     existsb (String.eqb (key r)) object_prototype_members = false ->
     In (key r) (map fst o)).

Lemma group_inv_step done_ o r :
  group_inv done_ o -> group_inv (done_ ++ [r]) (step o r).
Proof.
  intros (Hnd & Hsum & Hown). unfold step, add_to_breakdown.
  destruct (has_own o (key r)) eqn:Eown.
  - apply has_own_in in Eown. split; [|split].
    + now rewrite update_own_keys.
    + intros kv Hkv.
      destruct (update_own_entries _ _ _ _ Hnd Hkv) as [(E & a & Ha & Hs)|(E & Hin)].
      * rewrite Hs, E, group_sum_snoc, String.eqb_refl. simpl.
        rewrite (Hsum _ Ha). reflexivity.
      * rewrite group_sum_snoc, (Hsum _ Hin).
        destruct (String.eqb_spec (key r) (fst kv)); [congruence|ring].
    + intros r' Hr' Hp. rewrite update_own_keys.
      apply in_app_iff in Hr' as [Hr'|[<-|[]]]; auto.
  - assert (Hnot : ~ In (key r) (map fst o)).
    { intros Hin. apply has_own_in in Hin. congruence. }
    assert (Hfresh : forall kv, In kv o -> String.eqb (key r) (fst kv) = false).
    { intros kv Hkv. apply String.eqb_neq. intros E. apply Hnot. rewrite E. now apply in_map. }
    destruct (existsb (String.eqb (key r)) object_prototype_members) eqn:Ep.
    + split; [|split]; auto.
      * intros kv Hkv. rewrite group_sum_snoc, (Hsum _ Hkv), (Hfresh _ Hkv). ring.
      * intros r' Hr' Hp. apply in_app_iff in Hr' as [Hr'|[<-|[]]]; auto. congruence.
    + split; [|split].
      * rewrite map_app. simpl. apply NoDup_app; auto.
        -- repeat constructor. simpl. tauto.
        -- intros x Hx [<-|[]]. contradiction.
      * intros kv Hkv. apply in_app_iff in Hkv as [Hkv|[<-|[]]].
        -- rewrite group_sum_snoc, (Hsum _ Hkv), (Hfresh _ Hkv). ring.
        -- simpl. rewrite group_sum_snoc, String.eqb_refl.
           rewrite (group_sum_none (key r) done_); [ring|].
           intros r' Hr' E. apply Hnot. rewrite <- E. apply Hown; auto. congruence.
      * intros r' Hr' Hp. rewrite map_app, in_app_iff.
        apply in_app_iff in Hr' as [Hr'|[<-|[]]]; [left; auto|right; now left].
Qed.

Lemma group_inv_fold rs done_ o :
  group_inv done_ o -> group_inv (done_ ++ rs) (fold_left step rs o).
Proof.
  revert done_ o. induction rs as [|r rs IH]; simpl; intros done_ o H.
  - now rewrite app_nil_r.
  - replace (done_ ++ r :: rs)%list with ((done_ ++ [r]) ++ rs)%list
      by now rewrite <- app_assoc.
    apply IH. now apply group_inv_step.
Qed.

(** Each own entry of a helper's object holds the monthly savings of its group. *)
Lemma breakdown_savings rs kv :
  In kv (breakdown_by key rs) -> (savings (snd kv) == group_sum key (fst kv) rs)%Q.
Proof.
  intros Hin.
  assert (H : group_inv rs (breakdown_by key rs)).
  { change rs with ([] ++ rs)%list at 1. apply group_inv_fold.
    split; [constructor|split]; simpl; intros; contradiction. }
  destruct H as (_ & Hs & _). auto.
Qed.

End GroupSums.

(** *** Counts per group *)

Section GroupCounts.
Variable key : DeletedResource -> string.

Let step (o : list (string * Acc)) (r : DeletedResource) : list (string * Acc) :=
  add_to_breakdown o (key r) (monthly_or_zero r).

Lemma group_count_snoc k l r :
  group_count key k (l ++ [r]) = (group_count key k l + if String.eqb (key r) k then 1 else 0)%nat.
Proof.
  unfold group_count. rewrite filter_app, length_app. cbn [filter].
  destruct (String.eqb (key r) k); reflexivity.
Qed.

Lemma group_count_none k l :
  (forall r, In r l -> key r <> k) -> group_count key k l = O.
Proof.
  unfold group_count. induction l as [|a l IH]; simpl; intros H; [reflexivity|].
  destruct (String.eqb_spec (key a) k) as [E|E].
  - exfalso. apply (H a); auto.
  - apply IH. intros r Hr. apply H. auto.
Qed.

(** The invariant [group_inv] with the counts in place of the sums. *)
Definition count_inv (done_ : list DeletedResource) (o : list (string * Acc)) : Prop :=
  NoDup (map fst o) /\
  (forall kv, In kv o -> count (snd kv) = group_count key (fst kv) done_) /\
  (forall r, In r done_ ->
     existsb (String.eqb (key r)) object_prototype_members = false ->
     In (key r) (map fst o)).

Lemma count_inv_step done_ o r :
  count_inv done_ o -> count_inv (done_ ++ [r]) (step o r).
Proof.
  intros (Hnd & Hcnt & Hown). unfold step, add_to_breakdown.
  destruct (has_own o (key r)) eqn:Eown.
  - apply has_own_in in Eown. split; [|split].
    + now rewrite update_own_keys.
    + intros kv Hkv.
      destruct (update_own_entries _ _ _ _ Hnd Hkv) as [(E & a & Ha & Hs)|(E & Hin)].
      * specialize (Hcnt _ Ha). simpl in Hcnt.
        rewrite Hs, E, group_count_snoc, String.eqb_refl, <- Hcnt. simpl. lia.
      * rewrite group_count_snoc, (Hcnt _ Hin).
        destruct (String.eqb_spec (key r) (fst kv)); [congruence|lia].
    + intros r' Hr' Hp. rewrite update_own_keys.
      apply in_app_iff in Hr' as [Hr'|[<-|[]]]; auto.
  - assert (Hnot : ~ In (key r) (map fst o)).
    { intros Hin. apply has_own_in in Hin. congruence. }
    assert (Hfresh : forall kv, In kv o -> String.eqb (key r) (fst kv) = false).
    { intros kv Hkv. apply String.eqb_neq. intros E. apply Hnot. rewrite E. now apply in_map. }
    destruct (existsb (String.eqb (key r)) object_prototype_members) eqn:Ep.
    + split; [|split]; auto.
      * intros kv Hkv. rewrite group_count_snoc, (Hcnt _ Hkv), (Hfresh _ Hkv). lia.
      * intros r' Hr' Hp. apply in_app_iff in Hr' as [Hr'|[<-|[]]]; auto. congruence.
    + split; [|split].
      * rewrite map_app. simpl. apply NoDup_app; auto.
        -- repeat constructor. simpl. tauto.
        -- intros x Hx [<-|[]]. contradiction.
      * intros kv Hkv. apply in_app_iff in Hkv as [Hkv|[<-|[]]].
        -- rewrite group_count_snoc, (Hcnt _ Hkv), (Hfresh _ Hkv). lia.
        -- simpl. rewrite group_count_snoc, String.eqb_refl.
           rewrite (group_count_none (key r) done_); [reflexivity|].
           intros r' Hr' E. apply Hnot. rewrite <- E. apply Hown; auto. congruence.
      * intros r' Hr' Hp. rewrite map_app, in_app_iff.
        apply in_app_iff in Hr' as [Hr'|[<-|[]]]; [left; auto|right; now left].
Qed.

Lemma count_inv_fold rs done_ o :
  count_inv done_ o -> count_inv (done_ ++ rs) (fold_left step rs o).
Proof.
  revert done_ o. induction rs as [|r rs IH]; simpl; intros done_ o H.
  - now rewrite app_nil_r.
  - replace (done_ ++ r :: rs)%list with ((done_ ++ [r]) ++ rs)%list
      by now rewrite <- app_assoc.
    apply IH. now apply count_inv_step.
Qed.

Lemma count_inv_breakdown rs : count_inv rs (breakdown_by key rs).
Proof.
  change rs with ([] ++ rs)%list at 1. apply count_inv_fold.
  split; [constructor|split]; simpl; intros; contradiction.
Qed.

End GroupCounts.

(** ** When the handlers produce a document *)

Lemma toISOString_some t : exists s, toISOString (Some t) = Some s.
Proof. eexists. reflexivity. Qed.

Lemma filter_up_to_valid host now rs r :
  In r (filter_up_to host now rs) ->
  exists t, new_Date host (deleted_at r) = Some t /\ t <= now.
Proof.
  unfold filter_up_to. rewrite filter_In. intros [_ H].
  destruct (new_Date host (deleted_at r)) as [t|]; [|discriminate].
  exists t. split; auto. now apply Z.leb_le.
Qed.

Lemma range_from_all_some host now rs :
  exists s, range_from_all host now (filter_up_to host now rs) = Some s.
Proof.
  unfold range_from_all.
  destruct (rev (filter_up_to host now rs)) as [|r l] eqn:E; [apply toISOString_some|].
  assert (Hr : In r (filter_up_to host now rs))
    by (apply in_rev; rewrite E; now left).
  destruct (filter_up_to_valid _ _ _ _ Hr) as (t & -> & _). apply toISOString_some.
Qed.

Lemma downloadAllLogs_download host now d rs :
  resources_of d = Some rs -> rs <> [] ->
  let filtered := filter_up_to host now rs in
  exists doc fn, downloadAllLogs host now d = Download doc fn /\
    toISOString (Some now) = Some (range_to (export_info doc)) /\
    range_from_all host now filtered = Some (range_from (export_info doc)) /\
    total_resources (export_info doc) = List.length filtered /\
    total_annual_savings (export_info doc) = toFixed2 (total_annual filtered) /\
    exported_resources doc = map (export_resource host d) filtered /\
    summary doc = AllTimeSummary (getBreakdownByType filtered)
                                 (getBreakdownByMonth host filtered).
Proof.
  intros Hd Hne filtered. unfold downloadAllLogs. rewrite Hd.
  destruct rs as [|r0 rs0]; [contradiction|]. cbv zeta.
  destruct (range_from_all_some host now (r0 :: rs0)) as [from Hfrom].
  destruct (toISOString_some now) as [now_iso Hnow].
  destruct (day_key_shape now) as (today & Htoday & _).
  unfold formatDate. fold filtered in Hfrom |- *. rewrite Hnow, Hfrom, Htoday.
  do 2 eexists. split; [reflexivity|]. cbn [export_info range_to range_from
    total_resources total_annual_savings exported_resources summary].
  repeat split.
Qed.

Lemma filter_month_valid host my rs r :
  In r (filter_month host my rs) ->
  exists sd ed t, month_window host my = (Some sd, Some ed) /\
    new_Date host (deleted_at r) = Some t /\ sd <= t <= ed.
Proof.
  unfold filter_month. destruct (month_window host my) as [s e].
  rewrite filter_In. intros [_ H]. apply andb_prop in H as [H1 H2].
  destruct s as [sd|], e as [ed|], (new_Date host (deleted_at r)) as [t|];
    try discriminate.
  apply Z.leb_le in H1, H2. exists sd, ed, t. auto.
Qed.

Lemma downloadMonthLog_download host now d rs my :
  resources_of d = Some rs -> filter_month host my rs <> [] ->
  let filtered := filter_month host my rs in
  exists doc fn bd, downloadMonthLog host now d my = Download doc fn /\
    getBreakdownByDay host filtered = Some bd /\
    total_resources (export_info doc) = List.length filtered /\
    total_annual_savings (export_info doc) = toFixed2 (total_annual filtered) /\
    exported_resources doc = map (export_resource host d) filtered /\
    summary doc = MonthSummary (getBreakdownByType filtered) bd.
Proof.
  intros Hd Hne. cbv zeta.
  destruct (filter_month host my rs) as [|r0 fs] eqn:Ef; [contradiction|].
  assert (Hr0 : In r0 (filter_month host my rs)) by (rewrite Ef; now left).
  destruct (filter_month_valid _ _ _ _ Hr0) as (sd & ed & _ & Hw & _).
  assert (Hday : exists bd, getBreakdownByDay host (r0 :: fs) = Some bd).
  { unfold getBreakdownByDay.
    replace (forallb _ (r0 :: fs)) with true; [eexists; reflexivity|].
    symmetry. apply forallb_forall. intros r Hr. rewrite <- Ef in Hr.
    destruct (filter_month_valid _ _ _ _ Hr) as (? & ? & t & _ & -> & _).
    destruct (day_key_shape t) as (k & -> & _). reflexivity. }
  destruct Hday as [bd Hbd].
  destruct (toISOString_some now) as [now_iso Hnow].
  destruct (toISOString_some sd) as [from Hfrom].
  destruct (toISOString_some ed) as [to Hto].
  unfold downloadMonthLog. rewrite Hd.
  destruct rs as [|x xs]; [discriminate Ef|]. cbv zeta.
  rewrite Hw. cbv iota. rewrite Ef.
  rewrite Hnow, Hfrom, Hto, Hbd.
  do 3 eexists. split; [reflexivity|].
  cbn [export_info total_resources total_annual_savings exported_resources summary].
  repeat split.
Qed.

(** * The claims *)

(** ** Empty input *)

(** C7: when [deleted_resources] is absent or empty, the month enumeration is
    empty and both download handlers only alert "No deleted resources data
    available to download.": no document is assembled or downloaded. *)
Theorem empty_input_alerts (host : Host) (now : Z) (d : option DashboardData)
  (monthYear : string) :
  (resources_of d = None \/ resources_of d = Some []) ->
  getAvailableMonths host d = [] /\
  downloadAllLogs host now d = Alert no_data_message /\
  downloadMonthLog host now d monthYear = Alert no_data_message.
Proof.
  unfold getAvailableMonths, downloadAllLogs, downloadMonthLog.
  intros [H|H]; rewrite H; auto.
Qed.

Lemma empty_input_alerts_witness :
  getAvailableMonths utc_host (sample_data []) = [] /\
  downloadAllLogs utc_host sample_now (sample_data []) = Alert no_data_message /\
  downloadMonthLog utc_host sample_now (sample_data []) "2025-02" = Alert no_data_message.
Proof. apply empty_input_alerts. right. reflexivity. Defined.

(** ** The month enumeration *)

Lemma set_add_in s k x : In x (set_add s k) <-> In x s \/ x = k.
Proof.
  unfold set_add. destruct (existsb (String.eqb k) s) eqn:E.
  - apply existsb_exists in E as (y & Hy & Heq). apply String.eqb_eq in Heq; subst y.
    split; [now left | intros [H| ->]; auto].
  - rewrite in_app_iff. simpl.
    split; intros [H|H]; [now left | destruct H as [<-|[]]; now right
                         | now left | right; left; now symmetry].
Qed.

Lemma set_add_nodup s k : NoDup s -> NoDup (set_add s k).
Proof.
  unfold set_add. destruct (existsb (String.eqb k) s) eqn:E; intros Hs; auto.
  apply Permutation_NoDup with (k :: s); [apply Permutation_cons_append|].
  constructor; auto. intros Hin.
  assert (existsb (String.eqb k) s = true) as E'.
  { apply existsb_exists. exists k. split; auto. apply String.eqb_refl. }
  congruence.
Qed.

Lemma set_add_fold (f : DeletedResource -> string) rs s :
  NoDup s ->
  NoDup (fold_left (fun s r => set_add s (f r)) rs s) /\
  (forall x, In x (fold_left (fun s r => set_add s (f r)) rs s)
             <-> In x s \/ exists r, In r rs /\ f r = x).
Proof.
  revert s. induction rs as [|a rs IH]; intros s Hs; simpl.
  - split; [exact Hs|]. intros x; split; [now left | intros [H|(r & [] & _)]; exact H].
  - destruct (IH (set_add s (f a)) (set_add_nodup _ _ Hs)) as [Hn Hi].
    split; [exact Hn|]. intros x. rewrite Hi, set_add_in. split.
    + intros [[H|H]|(r & Hr & Hx)].
      * now left.
      * right. exists a. split; [now left | now symmetry].
      * right. exists r. split; [now right | exact Hx].
    + intros [H|(r & [Hr|Hr] & Hx)].
      * left. now left.
      * subst. left. now right.
      * right. exists r. auto.
Qed.

Lemma Sorted_le_strict l :
  Sorted str_le l -> NoDup l -> Sorted (fun a b => String.compare a b = Lt) l.
Proof.
  induction l as [|a l IH]; intros Hs Hn; constructor;
    inversion Hs as [|? ? Hs' Hd]; inversion Hn as [|? ? Hna Hn']; subst; auto.
  destruct l as [|b l']; constructor. inversion Hd as [|? ? Hab]; subst.
  unfold str_le in Hab. destruct (String.compare a b) eqn:E; try congruence.
  apply String.compare_eq_iff in E. subst. exfalso. apply Hna. now left.
Qed.

Lemma StronglySorted_app_one {A} (R : A -> A -> Prop) l a :
  StronglySorted R l -> (forall x, In x l -> R x a) -> StronglySorted R (l ++ [a]).
Proof.
  induction l as [|b l IH]; simpl; intros Hs Hl.
  - unfold newest_first. repeat constructor.
  - inversion Hs as [|? ? Hs' Hf]; subst. constructor.
    + apply IH; auto.
    + apply Forall_app. split; auto.
Qed.

Lemma StronglySorted_rev {A} (R : A -> A -> Prop) l :
  StronglySorted R l -> StronglySorted (fun a b => R b a) (rev l).
Proof.
  induction 1 as [|a l Hs IH Hf]; simpl; [constructor|].
  apply StronglySorted_app_one; auto.
  intros x Hx. apply in_rev in Hx. rewrite Forall_forall in Hf. auto.
Qed.

Lemma sort_strings_sorted l : Sorted str_le (sort_strings l).
Proof. apply (sort_by_sorted String.compare str_le_gt_flip). Qed.

(** C8: for a present list of deletion records, [getAvailableMonths] yields
    each month key ("YYYY-MM" in local time) of some record exactly once, every
    such key appears, and the keys are in strictly descending string order. *)
Theorem available_months_spec (host : Host) (d : option DashboardData)
  (rs : list DeletedResource) :
  resources_of d = Some rs ->
  NoDup (getAvailableMonths host d) /\
  (forall k, In k (getAvailableMonths host d) <->
             exists r, In r rs /\ resource_month_key host r = k) /\
  Sorted str_gt (getAvailableMonths host d).
Proof.
  intros Hd. unfold getAvailableMonths. rewrite Hd. destruct rs as [|r0 rs0].
  - split; [constructor|]. split; [|constructor].
    intros k. split; [intros []| intros (r & [] & _)].
  - set (rs := r0 :: rs0).
    destruct (set_add_fold (resource_month_key host) rs [] (NoDup_nil _)) as [Hn Hi].
    set (S := fold_left _ rs []) in *.
    pose proof (sort_by_perm String.compare S) as Hp. fold (sort_strings S) in Hp.
    assert (Hn' : NoDup (sort_strings S)) by (eapply Permutation_NoDup; [symmetry; exact Hp|exact Hn]).
    split; [|split].
    + now apply NoDup_rev.
    + intros k. rewrite <- in_rev.
      split.
      * intros Hk. apply (Permutation_in _ Hp) in Hk.
        apply Hi in Hk as [[]|Hk]. exact Hk.
      * intros Hk. apply (Permutation_in _ (Permutation_sym Hp)). apply Hi. now right.
    + assert (Hss : StronglySorted (fun a b => String.compare a b = Lt) (sort_strings S)).
      { apply Sorted_StronglySorted.
        - intros x y z. apply string_compare_lt_trans.
        - apply Sorted_le_strict; auto using sort_strings_sorted. }
      apply StronglySorted_rev in Hss. apply StronglySorted_Sorted in Hss.
      eapply Sorted_weaken with (P := fun _ => True); [| |exact Hss].
      * intros a b _ _ H. unfold str_gt. now rewrite String.compare_antisym, H.
      * apply Forall_forall. auto.
Qed.

Lemma available_months_spec_witness :
  let rs := [ev "EC2" "i-1" "2025-03-02T10:00:00Z" 10;
             ev "S3" "b-1" "2025-01-10T00:00:00Z" 5;
             ev "EBS" "v-1" "2025-03-20T08:30:00Z" 2] in
  NoDup (getAvailableMonths utc_host (sample_data rs)) /\
  (forall k, In k (getAvailableMonths utc_host (sample_data rs)) <->
             exists r, In r rs /\ resource_month_key utc_host r = k) /\
  Sorted str_gt (getAvailableMonths utc_host (sample_data rs)).
Proof. intros rs. apply available_months_spec. reflexivity. Defined.

(** ** The region of the exported records *)

Lemma resolve_region_documented host d r :
  er_region (export_resource host d r) = documented_region (region r) (config_region_of d).
Proof.
  unfold export_resource, resolve_region, documented_region, or_str, truthy_str; simpl.
  destruct (region r) as [s|], (config_region_of d) as [c|];
    try destruct (String.eqb s ""); try destruct (String.eqb c ""); reflexivity.
Qed.

(** C10: every record of the exported [deleted_resources] (both documents map
    [export_resource] over the selected events) has as region the event's own
    region when it is a non-empty string, otherwise the configured region when
    that is a non-empty string, otherwise ["us-east-1"]. *)
Theorem exported_region_rule (host : Host) (now : Z) (d : option DashboardData)
  (monthYear : string) :
  (forall r, er_region (export_resource host d r)
             = documented_region (region r) (config_region_of d)) /\
  match resources_of d, downloadAllLogs host now d with
  | Some rs, Download doc _ =>
      exported_resources doc = map (export_resource host d) (filter_up_to host now rs)
  | _, _ => True
  end /\
  match resources_of d, downloadMonthLog host now d monthYear with
  | Some rs, Download doc _ =>
      exported_resources doc = map (export_resource host d) (filter_month host monthYear rs)
  | _, _ => True
  end.
Proof.
  split; [intros r; apply resolve_region_documented|].
  unfold downloadAllLogs, downloadMonthLog.
  destruct (resources_of d) as [[|x xs]|]; auto. cbv zeta. split.
  - destruct (toISOString (Some now)),
      (range_from_all host now (filter_up_to host now (x :: xs))),
      (formatDate (Some now)); reflexivity.
  - destruct (month_window host monthYear) as [sd ed].
    destruct (filter_month host monthYear (x :: xs)) eqn:Ef; auto.
    destruct (toISOString (Some now)), (toISOString sd), (toISOString ed),
      (getBreakdownByDay host (d0 :: l)); auto.
Qed.

(** ** A requested month without matches *)

Lemma split_on_sep sep a b :
  all_chars (fun c => negb (Ascii.eqb c sep)) a = true ->
  split_on sep (a +++ String sep b) = a :: split_on sep b.
Proof.
  induction a as [|c r IH]; intros Ha.
  - simpl. now rewrite Ascii.eqb_refl.
  - cbn [all_chars] in Ha. apply andb_prop in Ha as [Hc Hr].
    apply negb_true_iff in Hc.
    cbn [String.append split_on]. rewrite Hc, (IH Hr). reflexivity.
Qed.

(** C6: for a non-empty list of records and a requested month key
    [ys-MM] (month [m] in 1..12 written with two digits, a year [ys] without a
    sign) that no record falls in, the month handler only alerts
    "No resources deleted in <month name> <ys>." and downloads nothing. *)
Theorem month_without_events_alerts (host : Host) (now : Z) (d : option DashboardData)
  (rs : list DeletedResource) (ys : string) (m : Z) :
  resources_of d = Some rs -> rs <> [] ->
  1 <= m <= 12 ->
  all_chars (fun c => negb (Ascii.eqb c "-")) ys = true ->
  filter_month host (ys +++ "-" +++ pad2 m) rs = [] ->
  downloadMonthLog host now d (ys +++ "-" +++ pad2 m)
  = Alert ("No resources deleted in " +++ nth (Z.to_nat (m - 1)) months EmptyString
           +++ " " +++ ys +++ ".").
Proof.
  intros Hd Hne Hm Hys Hf.
  unfold downloadMonthLog. rewrite Hd.
  destruct rs as [|x xs]; [contradiction|]. cbv zeta.
  destruct (month_window host (ys +++ "-" +++ pad2 m)). rewrite Hf.
  change ("-" +++ pad2 m) with (String "-" (pad2 m)).
  rewrite (split_on_sep _ _ _ Hys). cbn [nth nth_error].
  assert (Hc : m = 1 \/ m = 2 \/ m = 3 \/ m = 4 \/ m = 5 \/ m = 6 \/ m = 7 \/ m = 8
               \/ m = 9 \/ m = 10 \/ m = 11 \/ m = 12) by lia.
  repeat destruct Hc as [->|Hc]; try reflexivity. subst. reflexivity.
Qed.

Lemma month_without_events_alerts_witness :
  downloadMonthLog utc_host sample_now
    (sample_data [ev "EC2" "i-1" "2025-03-02T10:00:00Z" 10;
                  ev "S3" "b-1" "2025-01-10T00:00:00Z" 5])
    ("2025" +++ "-" +++ pad2 2)
  = Alert ("No resources deleted in " +++ nth (Z.to_nat (2 - 1)) months EmptyString
           +++ " " +++ "2025" +++ ".").
Proof.
  apply (month_without_events_alerts utc_host sample_now _
           [ev "EC2" "i-1" "2025-03-02T10:00:00Z" 10;
            ev "S3" "b-1" "2025-01-10T00:00:00Z" 5]).
  - reflexivity.
  - discriminate.
  - lia.
  - reflexivity.
  - vm_compute. reflexivity.
Defined.

(** ** Counts in the summaries *)

Lemma month_keys_not_proto host rs r :
  In r rs ->
  existsb (String.eqb (resource_month_key host r)) object_prototype_members = false.
Proof.
  intros _. apply key_chars_not_proto. unfold resource_month_key. apply month_key_shape.
Qed.

Lemma month_counts host rs :
  list_sum (map me_count (getBreakdownByMonth host rs)) = List.length rs.
Proof.
  unfold getBreakdownByMonth. rewrite map_map.
  change (fun x => me_count (month_entry x)) with (fun kv : string * Acc => count (snd kv)).
  fold (sum_counts (sort_entries (object_entries (breakdown_by (resource_month_key host) rs)))).
  unfold sort_entries. rewrite (sum_counts_perm _ _ (sort_by_perm _ _)).
  rewrite (sum_counts_perm _ _ (object_entries_perm _)).
  apply sum_counts_breakdown. apply month_keys_not_proto.
Qed.

Lemma day_keys_valid host rs r :
  forallb (fun r => match day_key (new_Date host (deleted_at r)) with
                    | Some _ => true | None => false end) rs = true ->
  In r rs ->
  exists t k, new_Date host (deleted_at r) = Some t /\ day_key (Some t) = Some k /\
              resource_day_key host r = k /\ key_ok k /\ all_chars key_char k = true.
Proof.
  intros Hall Hr. rewrite forallb_forall in Hall. specialize (Hall r Hr).
  unfold resource_day_key.
  destruct (new_Date host (deleted_at r)) as [t|]; [|discriminate].
  destruct (day_key_shape t) as (k & Hk & Hok & Hc).
  exists t, k. rewrite Hk. auto.
Qed.

Lemma day_counts host rs bd :
  getBreakdownByDay host rs = Some bd -> list_sum (map de_count bd) = List.length rs.
Proof.
  unfold getBreakdownByDay. destruct (forallb _ rs) eqn:Hall; [|discriminate].
  intros H. injection H as <-. rewrite map_map.
  change (fun x => de_count (day_entry host x)) with (fun kv : string * Acc => count (snd kv)).
  fold (sum_counts (sort_entries (object_entries (breakdown_by (resource_day_key host) rs)))).
  unfold sort_entries. rewrite (sum_counts_perm _ _ (sort_by_perm _ _)).
  rewrite (sum_counts_perm _ _ (object_entries_perm _)).
  apply sum_counts_breakdown. intros r Hr.
  destruct (day_keys_valid _ _ _ Hall Hr) as (t & k & _ & _ & -> & _ & Hc).
  now apply key_chars_not_proto.
Qed.

(** C5: whenever a document is produced, its [total_resources] equals the sum
    of the [count] fields of [summary.by_month] (complete log) or of
    [summary.by_day] (single month). *)
Theorem totals_match_breakdown_counts (host : Host) (now : Z) (d : option DashboardData)
  (rs : list DeletedResource) (monthYear : string) :
  resources_of d = Some rs -> rs <> [] ->
  (exists doc fn bt bm,
      downloadAllLogs host now d = Download doc fn /\
      summary doc = AllTimeSummary bt bm /\
      total_resources (export_info doc) = list_sum (map me_count bm)) /\
  (filter_month host monthYear rs <> [] ->
   exists doc fn bt bd,
      downloadMonthLog host now d monthYear = Download doc fn /\
      summary doc = MonthSummary bt bd /\
      total_resources (export_info doc) = list_sum (map de_count bd)).
Proof.
  intros Hd Hne. split.
  - destruct (downloadAllLogs_download host now d rs Hd Hne)
      as (doc & fn & Hdl & _ & _ & Ht & _ & _ & Hs).
    exists doc, fn, (getBreakdownByType (filter_up_to host now rs)),
      (getBreakdownByMonth host (filter_up_to host now rs)).
    split; [exact Hdl|]. split; [exact Hs|].
    rewrite Ht. symmetry. apply month_counts.
  - intros Hf.
    destruct (downloadMonthLog_download host now d rs monthYear Hd Hf)
      as (doc & fn & bd & Hdl & Hbd & Ht & _ & _ & Hs).
    exists doc, fn, (getBreakdownByType (filter_month host monthYear rs)), bd.
    split; [exact Hdl|]. split; [exact Hs|].
    rewrite Ht. symmetry. now apply (day_counts host).
Qed.

Lemma totals_match_breakdown_counts_witness :
  let rs := [ev "EC2" "i-1" "2025-03-02T10:00:00Z" 10;
             ev "S3" "b-1" "2025-01-10T00:00:00Z" 5;
             ev "EBS" "v-1" "2025-03-20T08:30:00Z" 2] in
  (exists doc fn bt bm,
      downloadAllLogs utc_host sample_now (sample_data rs) = Download doc fn /\
      summary doc = AllTimeSummary bt bm /\
      total_resources (export_info doc) = list_sum (map me_count bm)) /\
  (exists doc fn bt bd,
      downloadMonthLog utc_host sample_now (sample_data rs) "2025-03" = Download doc fn /\
      summary doc = MonthSummary bt bd /\
      total_resources (export_info doc) = list_sum (map de_count bd)).
Proof.
  intros rs.
  destruct (totals_match_breakdown_counts utc_host sample_now (sample_data rs) rs "2025-03")
    as [H1 H2].
  - reflexivity.
  - discriminate.
  - split; [exact H1|]. apply H2. vm_compute. discriminate.
Defined.

(** ** Order of the breakdowns *)

Lemma Forall_perm {A} (P : A -> Prop) l l' : Permutation l l' -> Forall P l' -> Forall P l.
Proof.
  intros Hp H. rewrite Forall_forall in *. intros x Hx.
  apply H. now apply (Permutation_in _ Hp).
Qed.

Lemma sort_entries_by_key {V} (l : list (string * V)) :
  Forall (fun kv => key_ok (fst kv)) l ->
  Sorted (fun a b => str_le (fst a) (fst b)) (sort_entries l).
Proof.
  intros Hl. unfold sort_entries.
  apply Sorted_weaken with (P := fun kv => key_ok (fst kv))
    (R := fun a b => String.compare (entry_string a) (entry_string b) <> Gt).
  - intros a b Ha Hb H. now apply entry_compare_key.
  - exact (Forall_perm _ _ _ (sort_by_perm _ _) Hl).
  - apply (sort_by_sorted (fun a b => String.compare (entry_string a) (entry_string b))).
    intros x y. apply str_le_gt_flip.
Qed.

Lemma breakdown_entries_keys key rs kv :
  In kv (object_entries (breakdown_by key rs)) -> exists r, In r rs /\ fst kv = key r.
Proof.
  intros H. apply (Permutation_in _ (object_entries_perm _)) in H.
  apply (breakdown_keys key). now apply in_map.
Qed.

Lemma Sorted_map_fst {A B} (R : A -> A -> Prop) (l : list (A * B)) :
  Sorted (fun a b => R (fst a) (fst b)) l -> Sorted R (map fst l).
Proof.
  induction 1 as [|a l Hs IH Hd]; simpl; constructor; auto.
  destruct Hd; simpl; constructor; auto.
Qed.

Lemma existsb_map_fst k (o : list (string * Acc)) :
  existsb (String.eqb k) (map fst o) = has_own o k.
Proof.
  unfold has_own. induction o as [|kv o IH]; simpl; auto.
  now rewrite IH, String.eqb_sym.
Qed.

Lemma add_to_breakdown_keys o k sv :
  existsb (String.eqb k) object_prototype_members = false ->
  map fst (add_to_breakdown o k sv) = set_add (map fst o) k.
Proof.
  intros Hk. unfold add_to_breakdown, set_add. rewrite existsb_map_fst.
  destruct (has_own o k); [apply update_own_keys|].
  rewrite Hk, map_app. reflexivity.
Qed.

Lemma breakdown_first_occurrences key rs :
  (forall r, In r rs -> existsb (String.eqb (key r)) object_prototype_members = false) ->
  map fst (breakdown_by key rs) = first_occurrences (map key rs).
Proof.
  unfold breakdown_by, first_occurrences.
  change (@nil string) with (map fst (@nil (string * Acc))).
  generalize (@nil (string * Acc)).
  induction rs as [|r rs IH]; intros o Hk; simpl; auto.
  rewrite IH by (intros; apply Hk; now right).
  rewrite add_to_breakdown_keys by (apply Hk; now left). reflexivity.
Qed.

Lemma month_groups_breakdown host rs :
  month_groups host rs (sort_entries (object_entries (breakdown_by (resource_month_key host) rs))).
Proof.
  set (B := breakdown_by (resource_month_key host) rs).
  assert (Hp : Permutation (sort_entries (object_entries B)) B).
  { unfold sort_entries. eapply perm_trans; [apply sort_by_perm|apply object_entries_perm]. }
  destruct (count_inv_breakdown (resource_month_key host) rs) as (Hnd & Hcnt & Hown).
  fold B in Hnd, Hcnt, Hown.
  split; [|split].
  - eapply Permutation_NoDup; [|exact Hnd]. symmetry. now apply Permutation_map.
  - intros k. split.
    + intros Hk. apply (Permutation_in _ (Permutation_map fst Hp)) in Hk.
      destruct (breakdown_keys _ _ _ Hk) as (r & Hr & ->). eauto.
    + intros (r & Hr & <-).
      apply (Permutation_in _ (Permutation_map fst (Permutation_sym Hp))).
      apply Hown; [exact Hr|]. now apply month_keys_not_proto with rs.
  - intros kv Hkv. apply (Permutation_in _ Hp) in Hkv. split; [now apply Hcnt|].
    now apply breakdown_savings.
Qed.

(** C2 (amended): [summary.by_month] is built from one group per distinct
    "YYYY-MM" key of the selected events (with that month's count and
    savings), listed in ascending order of these keys, and [summary.by_day] lists its dates in ascending
    order; [summary.by_type] is not sorted: its types come in the order in
    which they first occur in the selected events (for type names that are
    neither array indices nor members of [Object.prototype]). *)
Theorem breakdown_orders (host : Host) (rs : list DeletedResource) :
  (exists l, month_groups host rs l /\ Sorted str_le (map fst l) /\
             getBreakdownByMonth host rs = map month_entry l) /\
  (forall bd, getBreakdownByDay host rs = Some bd -> Sorted str_le (map de_date bd)) /\
  ((forall r, In r rs -> is_array_index (resource_type r) = false /\
                         existsb (String.eqb (resource_type r)) object_prototype_members
                         = false) ->
   map te_type (getBreakdownByType rs) = first_occurrences (map resource_type rs)).
Proof.
  split; [|split].
  - eexists. split; [apply month_groups_breakdown|split; [|reflexivity]].
    apply Sorted_map_fst. apply sort_entries_by_key. apply Forall_forall. intros kv Hkv.
    destruct (breakdown_entries_keys _ _ _ Hkv) as (r & _ & ->).
    apply month_key_shape.
  - intros bd. unfold getBreakdownByDay. destruct (forallb _ rs) eqn:Hall; [|discriminate].
    intros H. injection H as <-. rewrite map_map.
    change (fun x => de_date (day_entry host x)) with (fun kv : string * Acc => fst kv).
    apply Sorted_map_fst. apply sort_entries_by_key. apply Forall_forall. intros kv Hkv.
    destruct (breakdown_entries_keys _ _ _ Hkv) as (r & Hr & ->).
    destruct (day_keys_valid _ _ _ Hall Hr) as (t & k & _ & _ & -> & Hok & _). exact Hok.
  - intros Hr. unfold getBreakdownByType.
    rewrite object_entries_no_index.
    + rewrite map_map. change (fun x => te_type (type_entry x)) with (fun kv : string * Acc => fst kv).
      apply breakdown_first_occurrences. intros r Hin. apply Hr, Hin.
    + apply forallb_forall. intros kv Hkv.
      destruct (breakdown_keys resource_type rs (fst kv) (in_map _ _ _ Hkv)) as (r & Hin & ->).
      rewrite (proj1 (Hr r Hin)). reflexivity.
Qed.

Lemma breakdown_orders_witness :
  let rs := [ev "S3" "b-1" "2025-03-02T10:00:00Z" 5;
             ev "EC2" "i-1" "2025-03-02T11:00:00Z" 10;
             ev "S3" "b-2" "2025-03-01T09:00:00Z" 2] in
  (exists l, month_groups utc_host rs l /\ Sorted str_le (map fst l) /\
             getBreakdownByMonth utc_host rs = map month_entry l) /\
  Sorted str_le (map de_date (match getBreakdownByDay utc_host rs with
                              | Some bd => bd | None => [] end)) /\
  map te_type (getBreakdownByType rs) = first_occurrences (map resource_type rs).
Proof.
  intros rs. destruct (breakdown_orders utc_host rs) as (H1 & H2 & H3).
  split; [exact H1|]. split.
  - apply H2. vm_compute. reflexivity.
  - apply H3. intros r Hin. simpl in Hin.
    repeat destruct Hin as [<-|Hin]; try contradiction; split; reflexivity.
Defined.

(** C2 fails as worded: [summary.by_type] of the complete log is not in
    ascending order of type names for events of types ["S3"] then ["EC2"]. *)
Lemma by_type_not_sorted :
  match downloadAllLogs utc_host sample_now
          (sample_data [ev "S3" "b-1" "2025-03-02T10:00:00Z" 5;
                        ev "EC2" "i-1" "2025-03-01T10:00:00Z" 10]) with
  | Download doc _ =>
      match summary doc with
      | AllTimeSummary bt _ =>
          map te_type bt = ["S3"; "EC2"] /\ ~ Sorted str_le (map te_type bt)
      | MonthSummary _ _ => False
      end
  | _ => False
  end.
Proof.
  vm_compute. split; [reflexivity|].
  intros H. inversion H as [|? ? _ Hd]; subst. inversion Hd as [|? ? Hle]; subst.
  apply Hle. reflexivity.
Qed.

(** ** Annual figures of the breakdowns *)

Lemma toFixed2_compat x y : (x == y)%Q -> toFixed2 x = toFixed2 y.
Proof.
  intros H. unfold toFixed2. cbv zeta.
  assert (Hb : Qle_bool 0 x = Qle_bool 0 y).
  { destruct (Qle_bool 0 x) eqn:Ex, (Qle_bool 0 y) eqn:Ey; auto.
    - apply Qle_bool_iff in Ex. rewrite H in Ex. apply Qle_bool_iff in Ex. congruence.
    - apply Qle_bool_iff in Ey. rewrite <- H in Ey. apply Qle_bool_iff in Ey. congruence. }
  rewrite Hb. destruct (negb (Qle_bool 0 y)).
  - rewrite (Qfloor_comp (- x * 100 + (1 # 2)) (- y * 100 + (1 # 2))) by (rewrite H; reflexivity).
    reflexivity.
  - rewrite (Qfloor_comp (x * 100 + (1 # 2)) (y * 100 + (1 # 2))) by (rewrite H; reflexivity).
    reflexivity.
Qed.

Lemma breakdown_entry_annual key rs kv :
  In kv (object_entries (breakdown_by key rs)) ->
  "$" +++ toFixed2 (savings (snd kv) * 12) = "$" +++ toFixed2 (group_sum key (fst kv) rs * 12).
Proof.
  intros H. apply (Permutation_in _ (object_entries_perm _)) in H.
  apply breakdown_savings in H. f_equal. apply toFixed2_compat. now rewrite H.
Qed.

(** C9 (amended): the annual figure of every [summary.by_type] entry and of
    the [summary.by_month] entry of each month key of the events is "$"
    followed by twelve times the summed monthly savings
    ([monthly_savings || 0]) of that type or month, to two decimals; the
    events' [annual_savings] do not enter it. *)
Theorem breakdown_annual_from_monthly (host : Host) (rs : list DeletedResource) :
  (forall te, In te (getBreakdownByType rs) ->
     te_annual_savings te = "$" +++ toFixed2 (group_sum resource_type (te_type te) rs * 12)) /\
  (exists l, month_groups host rs l /\ getBreakdownByMonth host rs = map month_entry l /\
     forall kv, In kv l ->
       me_annual_savings (month_entry kv)
       = "$" +++ toFixed2 (group_sum (resource_month_key host) (fst kv) rs * 12)).
Proof.
  split.
  - intros te Hte. unfold getBreakdownByType in Hte.
    apply in_map_iff in Hte as (kv & <- & Hkv).
    exact (breakdown_entry_annual _ _ _ Hkv).
  - eexists. split; [apply month_groups_breakdown|split; [reflexivity|]].
    intros kv Hkv.
    unfold sort_entries in Hkv. apply (Permutation_in _ (sort_by_perm _ _)) in Hkv.
    exact (breakdown_entry_annual _ _ _ Hkv).
Qed.

Lemma breakdown_annual_from_monthly_witness :
  let rs := [ev "EC2" "i-1" "2025-03-02T10:00:00Z" 10;
             {| resource_type := "EC2"; resource_id := "i-2"; resource_name := None;
                deleted_at := "2025-03-05T10:00:00Z"; monthly_savings := Some 7%Q;
                annual_savings := Some 100%Q; region := None |}] in
  te_annual_savings (type_entry ("EC2", {| count := 2; savings := 17%Q |}))
  = "$" +++ toFixed2 (group_sum resource_type "EC2" rs * 12).
Proof.
  intros rs. apply (proj1 (breakdown_annual_from_monthly utc_host rs)).
  vm_compute. left. reflexivity.
Defined.

(** C9 fails as worded: two events whose explicit annual savings (125 and
    115) both differ from twelve times their monthly savings (10) still give
    breakdown annual figures equal to [totals.annual_savings_sum]; the figures
    can disagree, as for one event with monthly 10 and annual 100. *)
Lemma breakdown_annual_agrees_example :
  let e1 := {| resource_type := "EC2"; resource_id := "i-1"; resource_name := None;
               deleted_at := "2025-03-02T10:00:00Z"; monthly_savings := Some 10%Q;
               annual_savings := Some 125%Q; region := None |} in
  let e2 := {| resource_type := "EC2"; resource_id := "i-2"; resource_name := None;
               deleted_at := "2025-03-05T10:00:00Z"; monthly_savings := Some 10%Q;
               annual_savings := Some 115%Q; region := None |} in
  let e3 := {| resource_type := "EC2"; resource_id := "i-3"; resource_name := None;
               deleted_at := "2025-03-02T10:00:00Z"; monthly_savings := Some 10%Q;
               annual_savings := Some 100%Q; region := None |} in
  ~ (annual_or_fallback e1 == monthly_or_zero e1 * 12)%Q /\
  ~ (annual_or_fallback e2 == monthly_or_zero e2 * 12)%Q /\
  match downloadAllLogs utc_host sample_now (sample_data [e1; e2]) with
  | Download doc _ =>
      match summary doc with
      | AllTimeSummary bt bm =>
          total_annual_savings (export_info doc) = "240.00" /\
          map te_annual_savings bt = ["$" +++ total_annual_savings (export_info doc)] /\
          map me_annual_savings bm = ["$" +++ total_annual_savings (export_info doc)]
      | MonthSummary _ _ => False
      end
  | _ => False
  end /\
  match downloadAllLogs utc_host sample_now (sample_data [e3]) with
  | Download doc _ =>
      match summary doc with
      | AllTimeSummary bt bm =>
          total_annual_savings (export_info doc) = "100.00" /\
          map te_annual_savings bt = ["$120.00"] /\
          map me_annual_savings bm = ["$120.00"]
      | MonthSummary _ _ => False
      end
  | _ => False
  end.
Proof.
  intros e1 e2 e3. split; [|split; [|split]].
  - vm_compute. discriminate.
  - vm_compute. discriminate.
  - vm_compute. repeat split.
  - vm_compute. repeat split.
Qed.

(** ** The date range of the complete log *)

Lemma date_le_trans x y z : date_le x y = true -> date_le y z = true -> date_le x z = true.
Proof.
  destruct x as [a|], y as [b|], z as [c|]; simpl; try discriminate.
  rewrite !Z.leb_le. lia.
Qed.

Lemma StronglySorted_filter {A} (R : A -> A -> Prop) (f : A -> bool) l :
  StronglySorted R l -> StronglySorted R (filter f l).
Proof.
  induction 1 as [|a l Hs IH Hf]; simpl; [constructor|].
  destruct (f a); [constructor; auto|exact IH].
  rewrite Forall_forall in *. intros x Hx. apply filter_In in Hx as [Hx _]. auto.
Qed.

Lemma StronglySorted_app_inv {A} (R : A -> A -> Prop) l1 l2 x y :
  StronglySorted R (l1 ++ l2) -> In x l1 -> In y l2 -> R x y.
Proof.
  induction l1 as [|a l1 IH]; simpl; [contradiction|].
  intros H [<-|Hx] Hy; inversion H as [|? ? Hs Hf]; subst.
  - rewrite Forall_forall in Hf. apply Hf. apply in_or_app. now right.
  - auto.
Qed.

(** C1 (amended): when the list of records is non-empty, the complete log's
    [date_range.to] is the ISO form of the as-of time; [date_range.from] is
    the ISO form of the as-of time when no record is at or before it, and
    otherwise the ISO form of the [deleted_at] of the LAST selected record in
    input order, which is the oldest selected one when the records are listed
    newest first. *)
Theorem all_time_range (host : Host) (now : Z) (d : option DashboardData)
  (rs : list DeletedResource) :
  resources_of d = Some rs -> rs <> [] ->
  exists doc fn,
    downloadAllLogs host now d = Download doc fn /\
    toISOString (Some now) = Some (range_to (export_info doc)) /\
    (filter_up_to host now rs = [] ->
     toISOString (Some now) = Some (range_from (export_info doc))) /\
    (forall pre r, filter_up_to host now rs = (pre ++ [r])%list ->
     toISOString (new_Date host (deleted_at r)) = Some (range_from (export_info doc)) /\
     (newest_first host rs ->
      forall r', In r' (filter_up_to host now rs) ->
      date_le (new_Date host (deleted_at r)) (new_Date host (deleted_at r')) = true)).
Proof.
  intros Hd Hne.
  destruct (downloadAllLogs_download host now d rs Hd Hne)
    as (doc & fn & Hdl & Hto & Hfrom & _).
  exists doc, fn. split; [exact Hdl|]. split; [exact Hto|]. split.
  - intros He. unfold range_from_all in Hfrom. rewrite He in Hfrom. exact Hfrom.
  - intros pre r Hf. unfold range_from_all in Hfrom.
    rewrite Hf, rev_app_distr in Hfrom. cbn [rev app] in Hfrom. split; [exact Hfrom|].
    intros Hns r' Hr'.
    assert (Hr : In r (filter_up_to host now rs))
      by (rewrite Hf; apply in_or_app; right; now left).
    destruct (filter_up_to_valid _ _ _ _ Hr) as (t & Ht & _).
    rewrite Hf in Hr'. apply in_app_or in Hr' as [Hr'|[<-|[]]].
    + apply Sorted_StronglySorted in Hns.
      2:{ intros a b c Hab Hbc. eapply date_le_trans; eauto. }
      apply (StronglySorted_filter _
               (fun r => date_le (new_Date host (deleted_at r)) (Some now))) in Hns.
      fold (filter_up_to host now rs) in Hns. rewrite Hf in Hns.
      exact (StronglySorted_app_inv _ _ _ _ _ Hns Hr' (or_introl eq_refl)).
    + rewrite Ht. simpl. apply Z.leb_refl.
Qed.

Lemma all_time_range_witness :
  let rs := [ev "EC2" "i-1" "2025-03-02T10:00:00Z" 10;
             ev "S3" "b-1" "2025-01-10T00:00:00Z" 5] in
  (exists doc fn,
    downloadAllLogs utc_host sample_now (sample_data rs) = Download doc fn /\
    toISOString (Some sample_now) = Some (range_to (export_info doc)) /\
    (filter_up_to utc_host sample_now rs = [] ->
     toISOString (Some sample_now) = Some (range_from (export_info doc))) /\
    (forall pre r, filter_up_to utc_host sample_now rs = (pre ++ [r])%list ->
     toISOString (new_Date utc_host (deleted_at r)) = Some (range_from (export_info doc)) /\
     (newest_first utc_host rs ->
      forall r', In r' (filter_up_to utc_host sample_now rs) ->
      date_le (new_Date utc_host (deleted_at r)) (new_Date utc_host (deleted_at r')) = true)))
  /\ filter_up_to utc_host sample_now rs
     = ([ev "EC2" "i-1" "2025-03-02T10:00:00Z" 10] ++ [ev "S3" "b-1" "2025-01-10T00:00:00Z" 5])%list
  /\ newest_first utc_host rs.
Proof.
  intros rs. split; [|split].
  - apply all_time_range.
    + reflexivity.
    + discriminate.
  - vm_compute. reflexivity.
  - unfold newest_first. repeat constructor.
Defined.

(** C1 fails as worded: with the records listed oldest first, [date_range.from]
    of the complete log is the newer record's time, not the oldest one's. *)
Lemma all_time_from_not_oldest :
  let older := ev "S3" "b-1" "2025-01-10T00:00:00Z" 5 in
  let newer := ev "EC2" "i-1" "2025-03-02T10:00:00Z" 10 in
  match downloadAllLogs utc_host sample_now (sample_data [older; newer]) with
  | Download doc _ =>
      toISOString (new_Date utc_host (deleted_at older)) = Some "2025-01-10T00:00:00.000Z" /\
      range_from (export_info doc) = "2025-03-02T10:00:00.000Z" /\
      Some (range_from (export_info doc)) <> toISOString (new_Date utc_host (deleted_at older))
  | _ => False
  end.
Proof. vm_compute. split; [reflexivity|]. split; [reflexivity|]. discriminate. Qed.

(** ** An explicit annual saving of zero *)

(** C3: an event whose [annual_savings] is present and equal to 0 (with
    [monthly_savings] 10) contributes 120, not 0, to
    [totals.annual_savings_sum]: [r.annual_savings || ...] treats 0 as
    absent. *)
Lemma annual_zero_counts_as_monthly :
  let e := {| resource_type := "EC2"; resource_id := "i-1"; resource_name := None;
              deleted_at := "2025-03-02T10:00:00Z"; monthly_savings := Some 10%Q;
              annual_savings := Some 0%Q; region := None |} in
  match downloadAllLogs utc_host sample_now (sample_data [e]) with
  | Download doc _ => total_annual_savings (export_info doc) = "120.00"
  | _ => False
  end.
Proof. vm_compute. reflexivity. Qed.

(** ** The end of the month window *)

(** C4: the month window ends at 23:59:59.000 local time on the month's last
    day, so an event at 2025-01-31T23:59:59.500 (UTC host), which falls in
    January, is offered under "2025-01" and counted on its button, yet the
    month filter drops it and the download only alerts. *)
Lemma month_window_misses_last_second :
  let e := ev "EC2" "i-1" "2025-01-31T23:59:59.500Z" 10 in
  month_window utc_host "2025-01" = (Some 1735689600000, Some 1738367999000) /\
  new_Date utc_host (deleted_at e) = Some 1738367999500 /\
  getAvailableMonths utc_host (sample_data [e]) = ["2025-01"] /\
  month_button_resources utc_host "2025-01" [e] = [e] /\
  filter_month utc_host "2025-01" [e] = [] /\
  downloadMonthLog utc_host sample_now (sample_data [e]) "2025-01"
  = Alert "No resources deleted in January 2025.".
Proof. vm_compute. repeat split. Qed.

(** * Further properties of the component *)

(** ** Reading a month key back *)

Lemma civil_month_range z0 : 1 <= snd (fst (civil_from_days z0)) <= 12.
Proof.
  unfold civil_from_days. cbv zeta.
  set (z := z0 + 719468). set (doe := z - z / 146097 * 146097).
  assert (Hdoe : 0 <= doe < 146097) by (unfold doe; Z.div_mod_to_equations; lia).
  clearbody doe.
  set (yoe := (doe - doe / 1460 + doe / 36524 - doe / 146096) / 365).
  assert (Hdoy : 0 <= doe - (365 * yoe + yoe / 4 - yoe / 100) <= 365)
    by (unfold yoe; Z.div_mod_to_equations; lia).
  set (doy := doe - (365 * yoe + yoe / 4 - yoe / 100)) in *.
  clearbody doy.
  assert (Hmp : 0 <= (5 * doy + 2) / 153 <= 11) by (Z.div_mod_to_equations; lia).
  set (mp := (5 * doy + 2) / 153) in *.
  destruct (_ <=? 2); simpl; destruct (mp <? 10) eqn:E;
    [apply Z.ltb_lt in E | apply Z.ltb_ge in E | apply Z.ltb_lt in E | apply Z.ltb_ge in E]; lia.
Qed.

Lemma month_from_time_range t : 0 <= MonthFromTime t <= 11.
Proof. unfold MonthFromTime. pose proof (civil_month_range (Day t)). lia. Qed.

Lemma digit_char_value d : 0 <= d < 10 -> digit_value (digit_char d) = Some d.
Proof.
  intros H.
  assert (Hd : d = 0 \/ d = 1 \/ d = 2 \/ d = 3 \/ d = 4 \/ d = 5 \/ d = 6 \/ d = 7
               \/ d = 8 \/ d = 9) by lia.
  repeat destruct Hd as [->|Hd]; try reflexivity. subst. reflexivity.
Qed.

Lemma take_digits_digits_fuel : forall f n acc a s,
  0 <= n < 10 ^ Z.of_nat (S f) ->
  exists e, 0 <= e /\
    take_digits 10 (digits_fuel (S f) n acc) a s = take_digits 10 acc (a * 10 ^ e + n) true.
Proof.
  induction f as [|f IH]; intros n acc a s Hn.
  - cbn [digits_fuel]. change (10 ^ Z.of_nat 1) with 10 in Hn.
    replace (n <? 10) with true by (symmetry; apply Z.ltb_lt; lia).
    exists 1. split; [lia|]. cbn [take_digits].
    rewrite Z.mod_small by lia. rewrite digit_char_value by lia.
    replace (n <? 10) with true by (symmetry; apply Z.ltb_lt; lia).
    try (f_equal; lia).
  - change (digits_fuel (S (S f)) n acc) with
      (if n <? 10 then String (digit_char (n mod 10)) acc
       else digits_fuel (S f) (n / 10) (String (digit_char (n mod 10)) acc)).
    destruct (n <? 10) eqn:E.
    + apply Z.ltb_lt in E.
      exists 1. split; [lia|]. cbn [take_digits].
      rewrite Z.mod_small by lia. rewrite digit_char_value by lia.
      replace (n <? 10) with true by (symmetry; apply Z.ltb_lt; lia).
      try (f_equal; lia).
    + apply Z.ltb_ge in E.
      destruct (IH (n / 10) (String (digit_char (n mod 10)) acc) a s) as (e & He & Ht).
      { split; [apply Z.div_pos; lia|].
        apply Z.div_lt_upper_bound; [lia|].
        rewrite Nat2Z.inj_succ, Z.pow_succ_r in Hn by lia. lia. }
      exists (e + 1). split; [lia|]. rewrite Ht. cbn [take_digits].
      rewrite digit_char_value by (apply Z.mod_pos_bound; lia).
      replace (n mod 10 <? 10) with true
        by (symmetry; apply Z.ltb_lt; apply Z.mod_pos_bound; lia).
      f_equal. rewrite Z.pow_add_r by lia.
      pose proof (Z.div_mod n 10). lia.
Qed.

Lemma string_of_nonneg_fuel n : 0 <= n -> n < 10 ^ Z.of_nat (S (Z.to_nat (Z.log2 n))).
Proof.
  intros Hn. rewrite Nat2Z.inj_succ, Z2Nat.id by apply Z.log2_nonneg.
  destruct (Z.eq_dec n 0) as [->|Hn0]; [apply Z.pow_pos_nonneg; [lia|]; apply Z.le_le_succ_r, Z.log2_nonneg|].
  apply Z.lt_le_trans with (2 ^ Z.succ (Z.log2 n)).
  - apply Z.log2_spec. lia.
  - apply Z.pow_le_mono_l. split; [lia|lia].
Qed.

Lemma take_digits_string_of_nonneg n seen :
  0 <= n -> take_digits 10 (string_of_nonneg n) 0 seen = Some n.
Proof.
  intros Hn. unfold string_of_nonneg.
  destruct (take_digits_digits_fuel (Z.to_nat (Z.log2 n)) n EmptyString 0 seen)
    as (e & _ & ->).
  - split; [exact Hn|]. now apply string_of_nonneg_fuel.
  - reflexivity.
Qed.

Lemma take_digits_zeros k n seen :
  0 <= n -> take_digits 10 (repeat_char k "0" +++ string_of_nonneg n) 0 seen = Some n.
Proof.
  revert seen. induction k as [|k IH]; intros seen Hn.
  - now apply take_digits_string_of_nonneg.
  - cbn [repeat_char String.append take_digits]. now apply IH.
Qed.

(** A decimal digit is no space, sign, letter or separator. *)
Lemma digit_not_special c :
  is_digit c = true ->
  is_js_space c = false /\ Ascii.eqb c "-" = false /\ Ascii.eqb c "+" = false /\
  Ascii.eqb c "x" = false /\ Ascii.eqb c "X" = false /\ Ascii.eqb c "N" = false /\
  Ascii.eqb c "T" = false.
Proof.
  destruct c as [[] [] [] [] [] [] [] []]; vm_compute; intros H;
    first [discriminate H | repeat split].
Qed.

Lemma option_map_mul1 (o : option Z) : option_map (Z.mul 1) o = o.
Proof. destruct o; [cbn [option_map]; now rewrite Z.mul_1_l | reflexivity]. Qed.

Lemma parseInt_digits s :
  all_chars is_digit s = true -> s <> EmptyString -> parseInt s = take_digits 10 s 0 false.
Proof.
  destruct s as [|c r]; [intros _ []; reflexivity|]. intros H _.
  cbn [all_chars] in H. apply andb_prop in H as [Hc Hr].
  destruct (digit_not_special c Hc) as (Hsp & Hm & Hp & Hx & HX & _).
  unfold parseInt. cbn [skip_space]. rewrite Hsp.
  destruct c as [[] [] [] [] [] [] [] []]; try (vm_compute in Hc; discriminate Hc);
    cbv iota beta; try apply option_map_mul1.
  destruct r as [|c' r]; [apply option_map_mul1|].
  cbn [all_chars] in Hr. apply andb_prop in Hr as [Hc' _].
  destruct (digit_not_special c' Hc') as (_ & _ & _ & Hx' & HX' & _).
  rewrite Hx', HX'. apply option_map_mul1.
Qed.

Lemma split_on_no_sep sep s :
  all_chars (fun c => negb (Ascii.eqb c sep)) s = true -> split_on sep s = [s].
Proof.
  induction s as [|c r IH]; intros H; [reflexivity|].
  cbn [all_chars] in H. apply andb_prop in H as [Hc Hr]. apply negb_true_iff in Hc.
  cbn [split_on]. rewrite Hc, (IH Hr). reflexivity.
Qed.

Lemma digits_no_dash s :
  all_chars is_digit s = true -> all_chars (fun c => negb (Ascii.eqb c "-")) s = true.
Proof.
  apply all_chars_impl. intros c Hc. destruct (digit_not_special c Hc) as (_ & -> & _).
  reflexivity.
Qed.

Lemma pad2_digits n : all_chars is_digit (pad2 n) = true.
Proof. unfold pad2. apply padStart_all; [reflexivity|apply string_of_nonneg_digits]. Qed.

Lemma parseInt_string_of_nonneg n : 0 <= n -> parseInt (string_of_nonneg n) = Some n.
Proof.
  intros Hn. rewrite parseInt_digits by (apply string_of_nonneg_digits
                                         || apply string_of_nonneg_nonempty).
  now apply take_digits_string_of_nonneg.
Qed.

Lemma parseInt_pad2 n : 0 <= n -> parseInt (pad2 n) = Some n.
Proof.
  intros Hn. rewrite parseInt_digits.
  - unfold pad2, padStart. now apply take_digits_zeros.
  - apply pad2_digits.
  - unfold pad2. apply padStart_nonempty, string_of_nonneg_nonempty.
Qed.

Lemma string_of_nonneg_head n :
  exists c r, string_of_nonneg n = String c r /\ is_digit c = true.
Proof.
  pose proof (string_of_nonneg_digits n) as Hd. pose proof (string_of_nonneg_nonempty n) as Hn.
  destruct (string_of_nonneg n) as [|c r]; [contradiction|].
  exists c, r. split; [reflexivity|]. cbn [all_chars] in Hd. now apply andb_prop in Hd as [-> _].
Qed.

Lemma month_key_some host t :
  month_key host (Some t)
  = number_to_string (Some (YearFromTime (LocalTime host t))) +++ "-"
    +++ padStart 2 "0" (number_to_string (Some (MonthFromTime (LocalTime host t) + 1))).
Proof. reflexivity. Qed.

Lemma month_key_ce host t :
  0 <= YearFromTime (LocalTime host t) ->
  month_key host (Some t)
  = string_of_nonneg (YearFromTime (LocalTime host t))
    +++ String "-" (pad2 (MonthFromTime (LocalTime host t) + 1)).
Proof.
  intros HY. rewrite month_key_some. unfold number_to_string, pad2.
  pose proof (month_from_time_range (LocalTime host t)).
  replace (YearFromTime (LocalTime host t) <? 0) with false by (symmetry; apply Z.ltb_ge; lia).
  replace (MonthFromTime (LocalTime host t) + 1 <? 0) with false
    by (symmetry; apply Z.ltb_ge; lia).
  reflexivity.
Qed.

(** [monthYear.split("-")] and [parseInt] recover the year and month of a
    month key of a year [>= 0]. *)
Lemma month_key_parse host t :
  0 <= YearFromTime (LocalTime host t) ->
  let parts := split_on "-" (month_key host (Some t)) in
  parseInt (nth 0 parts EmptyString) = Some (YearFromTime (LocalTime host t)) /\
  parseInt_opt (nth_error parts 1) = Some (MonthFromTime (LocalTime host t) + 1).
Proof.
  intros HY. cbv zeta. rewrite month_key_ce by exact HY.
  rewrite split_on_sep by (apply digits_no_dash, string_of_nonneg_digits).
  rewrite (split_on_no_sep _ (pad2 _)) by (apply digits_no_dash, pad2_digits).
  cbn [nth nth_error parseInt_opt]. pose proof (month_from_time_range (LocalTime host t)).
  split; [now apply parseInt_string_of_nonneg | apply parseInt_pad2; lia].
Qed.

Lemma month_key_ce_head host r :
  dated_ce host r = true ->
  exists c rest, resource_month_key host r = String c rest /\ is_digit c = true.
Proof.
  unfold dated_ce, resource_month_key.
  destruct (new_Date host (deleted_at r)) as [t|]; [|discriminate]. intros HY.
  apply Z.leb_le in HY. rewrite month_key_ce by exact HY.
  destruct (string_of_nonneg_head (YearFromTime (LocalTime host t))) as (c & rest & -> & Hc).
  exists c, (rest +++ String "-" (pad2 (MonthFromTime (LocalTime host t) + 1))). auto.
Qed.

Lemma eqb_head_digit c r s :
  is_digit c = true -> (Ascii.eqb c "N" = false /\ s = String "N" r
                        \/ Ascii.eqb c "-" = false /\ s = String "-" r) ->
  forall rest, String.eqb (String c rest) s = false.
Proof.
  intros Hc Hs rest. apply not_true_iff_false. intros E. apply String.eqb_eq in E.
  destruct Hs as [[Hn ->]|[Hn ->]]; injection E as Ec _; subst; discriminate Hn.
Qed.

Lemma number_to_string_neg y :
  y < 0 -> number_to_string (Some y) = String "-" (string_of_nonneg (- y)).
Proof.
  intros H. unfold number_to_string. replace (y <? 0) with true by (symmetry; apply Z.ltb_lt; lia).
  reflexivity.
Qed.

(** The month key of a record without a valid date in a year [>= 0] starts
    with ["N"] ("NaN-NaN") or with a minus sign. *)
Lemma month_key_not_ce host r :
  dated_ce host r = false ->
  exists rest, resource_month_key host r = String "N" rest
               \/ resource_month_key host r = String "-" rest.
Proof.
  unfold dated_ce, resource_month_key.
  destruct (new_Date host (deleted_at r)) as [t|].
  - intros HY. apply Z.leb_gt in HY. rewrite month_key_some, number_to_string_neg by lia.
    eexists. right. reflexivity.
  - intros _. eexists. left. reflexivity.
Qed.

Lemma ce_key_differs host r r' :
  dated_ce host r = true -> dated_ce host r' = false ->
  String.eqb (resource_month_key host r') (resource_month_key host r) = false.
Proof.
  intros H H'. destruct (month_key_ce_head host r H) as (c & rest & Hr & Hc).
  destruct (month_key_not_ce host r' H') as (rest' & Hr').
  destruct (digit_not_special c Hc) as (_ & Hm & _ & _ & _ & HN & _).
  rewrite String.eqb_sym, Hr. apply eqb_head_digit with rest'; [exact Hc|].
  destruct Hr' as [E|E]; [left|right]; auto.
Qed.

Lemma num_eq_none_r x : num_eq x None = false.
Proof. destruct x; reflexivity. Qed.

(** Which records a month button counts: for the month key of any date,
    valid or not, exactly the records with a valid date in a year [>= 0]
    whose month key is that key. *)
Lemma month_button_resources_key host rs d :
  month_button_resources host (month_key host d) rs
  = filter (fun r => dated_ce host r
                     && String.eqb (resource_month_key host r) (month_key host d)) rs.
Proof.
  unfold month_button_resources. cbv zeta. apply filter_ext. intros r.
  destruct d as [t0|].
  - destruct (Z.le_gt_cases 0 (YearFromTime (LocalTime host t0))) as [HY0|HY0].
    + destruct (month_key_parse host t0 HY0) as [Hy Hm]. cbv zeta in Hy, Hm.
      rewrite Hy, Hm. cbn [option_map].
      unfold dated_ce, resource_month_key, getFullYear, getMonth.
      destruct (new_Date host (deleted_at r)) as [t|]; [|reflexivity].
      cbn [option_map num_eq].
      destruct (Z.le_gt_cases 0 (YearFromTime (LocalTime host t))) as [HY|HY].
      * replace (0 <=? YearFromTime (LocalTime host t)) with true
          by (symmetry; now apply Z.leb_le). cbn [andb].
        destruct (String.eqb (month_key host (Some t)) (month_key host (Some t0))) eqn:E.
        -- apply String.eqb_eq in E. destruct (month_key_parse host t HY) as [Hy' Hm'].
           cbv zeta in Hy', Hm'. rewrite E, Hy in Hy'. rewrite E, Hm in Hm'.
           injection Hy' as Hy'. injection Hm' as Hm'.
           rewrite <- Hy', Z.eqb_refl. cbn [andb]. apply Z.eqb_eq. lia.
        -- destruct (YearFromTime (LocalTime host t) =? YearFromTime (LocalTime host t0)) eqn:E1;
             [|reflexivity].
           destruct (MonthFromTime (LocalTime host t) =? MonthFromTime (LocalTime host t0) + 1 - 1)
             eqn:E2; [|reflexivity].
           apply Z.eqb_eq in E1, E2. rewrite !month_key_some, E1 in E.
           replace (MonthFromTime (LocalTime host t)) with (MonthFromTime (LocalTime host t0))
             in E by lia.
           rewrite String.eqb_refl in E. discriminate.
      * replace (YearFromTime (LocalTime host t) =? YearFromTime (LocalTime host t0)) with false
          by (symmetry; apply Z.eqb_neq; lia).
        replace (0 <=? YearFromTime (LocalTime host t)) with false
          by (symmetry; apply Z.leb_gt; lia).
        reflexivity.
    + assert (Hk : exists rest, month_key host (Some t0) = String "-" rest).
      { rewrite month_key_some, number_to_string_neg by lia. eexists. reflexivity. }
      destruct Hk as [rest Hk]. rewrite Hk. cbn [split_on]. rewrite Ascii.eqb_refl.
      cbn [nth]. change (parseInt EmptyString) with (@None Z).
      rewrite num_eq_none_r. cbn [andb].
      destruct (dated_ce host r) eqn:Hv; [|reflexivity]. symmetry.
      destruct (month_key_ce_head host r Hv) as (c & rest' & -> & Hc).
      apply eqb_head_digit with rest; [exact Hc|]. right.
      split; [|reflexivity]. now destruct (digit_not_special c Hc) as (_ & -> & _).
  - change (month_key host None) with "NaN-NaN".
    change (parseInt (nth 0 (split_on "-" "NaN-NaN") EmptyString)) with (@None Z).
    rewrite num_eq_none_r. cbn [andb].
    destruct (dated_ce host r) eqn:Hv; [|reflexivity]. symmetry.
    destruct (month_key_ce_head host r Hv) as (c & rest' & -> & Hc).
    apply eqb_head_digit with "aN-NaN"; [exact Hc|]. left.
    split; [|reflexivity]. now destruct (digit_not_special c Hc) as (_ & _ & _ & _ & _ & -> & _).
Qed.

Lemma getMonthName_range i :
  0 <= i < 12 -> getMonthName (Some i) = Some (nth (Z.to_nat i) months EmptyString).
Proof.
  intros H. unfold getMonthName.
  replace ((0 <=? i) && (i <? 12)) with true
    by (symmetry; apply andb_true_intro; split; [apply Z.leb_le|apply Z.ltb_lt]; lia).
  apply nth_error_nth'. simpl. lia.
Qed.

Lemma month_button_label_ce host t :
  0 <= YearFromTime (LocalTime host t) ->
  month_button_label (month_key host (Some t))
  = nth (Z.to_nat (MonthFromTime (LocalTime host t))) months EmptyString
    +++ " " +++ string_of_nonneg (YearFromTime (LocalTime host t)).
Proof.
  intros HY. unfold month_button_label. cbv zeta.
  destruct (month_key_parse host t HY) as [_ Hm]. cbv zeta in Hm. rewrite Hm.
  cbn [option_map]. pose proof (month_from_time_range (LocalTime host t)).
  replace (MonthFromTime (LocalTime host t) + 1 - 1) with (MonthFromTime (LocalTime host t))
    by lia.
  rewrite getMonthName_range by lia. cbn [jsx_text].
  rewrite month_key_ce by exact HY.
  rewrite split_on_sep by (apply digits_no_dash, string_of_nonneg_digits). reflexivity.
Qed.

(** ** The month buttons *)

(** X1: the button of the month of a record dated in a year [>= 0] counts
    exactly the records with that month key, shows the sum of their monthly
    savings, and is labelled with the month's name and the year. *)
Theorem month_button_shows_month_group (host : Host) (rs : list DeletedResource)
  (r0 : DeletedResource) (t0 : Z) :
  new_Date host (deleted_at r0) = Some t0 ->
  0 <= YearFromTime (LocalTime host t0) ->
  let k := resource_month_key host r0 in
  month_button_resources host k rs
  = filter (fun r => String.eqb (resource_month_key host r) k) rs /\
  month_button_savings host k rs
  = total_monthly (filter (fun r => String.eqb (resource_month_key host r) k) rs) /\
  month_button_label k
  = nth (Z.to_nat (MonthFromTime (LocalTime host t0))) months EmptyString
    +++ " " +++ string_of_nonneg (YearFromTime (LocalTime host t0)).
Proof.
  intros Ht0 HY0 k.
  assert (Hk : k = month_key host (Some t0)) by (unfold k, resource_month_key; now rewrite Ht0).
  assert (Hv0 : dated_ce host r0 = true) by (unfold dated_ce; rewrite Ht0; now apply Z.leb_le).
  assert (Hres : month_button_resources host k rs
                 = filter (fun r => String.eqb (resource_month_key host r) k) rs).
  { rewrite Hk at 1. rewrite month_button_resources_key. rewrite <- Hk.
    apply filter_ext. intros r.
    destruct (dated_ce host r) eqn:Hv; [reflexivity|].
    unfold k. now rewrite ce_key_differs. }
  split; [exact Hres|]. split.
  - unfold month_button_savings, total_monthly. now rewrite Hres.
  - rewrite Hk. now apply month_button_label_ce.
Qed.

Lemma month_button_shows_month_group_witness :
  let r0 := ev "EC2" "i-1" "2025-03-02T10:00:00Z" 10 in
  let rs := [r0; ev "S3" "b-1" "2025-01-10T00:00:00Z" 5;
             ev "EBS" "v-1" "2025-03-20T08:30:00Z" 2] in
  let k := resource_month_key utc_host r0 in
  month_button_resources utc_host k rs
  = filter (fun r => String.eqb (resource_month_key utc_host r) k) rs /\
  month_button_savings utc_host k rs
  = total_monthly (filter (fun r => String.eqb (resource_month_key utc_host r) k) rs) /\
  month_button_label k
  = nth (Z.to_nat (MonthFromTime (LocalTime utc_host 1740909600000))) months EmptyString
    +++ " " +++ string_of_nonneg (YearFromTime (LocalTime utc_host 1740909600000)).
Proof.
  intros r0 rs k. apply month_button_shows_month_group.
  - vm_compute. reflexivity.
  - apply Z.leb_le. vm_compute. reflexivity.
Defined.

(** ** Helpers for the month buttons *)

Lemma available_months_in host d rs :
  resources_of d = Some rs ->
  NoDup (getAvailableMonths host d) /\
  (forall k, In k (getAvailableMonths host d) <->
             exists r, In r rs /\ resource_month_key host r = k).
Proof.
  intros Hd. unfold getAvailableMonths. rewrite Hd. destruct rs as [|r0 rs0].
  - split; [constructor|]. intros k. split; [intros []| intros (r & [] & _)].
  - set (rs := r0 :: rs0).
    destruct (set_add_fold (resource_month_key host) rs [] (NoDup_nil _)) as [Hn Hi].
    set (S := fold_left _ rs []) in *.
    pose proof (sort_by_perm String.compare S) as Hp. fold (sort_strings S) in Hp.
    split.
    + apply NoDup_rev. eapply Permutation_NoDup; [symmetry; exact Hp|exact Hn].
    + intros k. rewrite <- in_rev. split.
      * intros Hk. apply (Permutation_in _ Hp) in Hk.
        apply Hi in Hk as [[]|Hk]. exact Hk.
      * intros Hk. apply (Permutation_in _ (Permutation_sym Hp)). apply Hi. now right.
Qed.

Lemma length_filter_or {A} (f g : A -> bool) l :
  (forall x, f x && g x = false) ->
  (List.length (filter f l) + List.length (filter g l)
   = List.length (filter (fun x => f x || g x) l))%nat.
Proof.
  intros Hfg. induction l as [|x l IH]; [reflexivity|]. cbn [filter].
  specialize (Hfg x).
  destruct (f x), (g x); cbn [orb andb List.length] in *; try discriminate; lia.
Qed.

Lemma filter_groups_count (p : DeletedResource -> bool) (key : DeletedResource -> string)
  ks rs :
  NoDup ks ->
  list_sum (map (fun k => List.length (filter (fun r => p r && String.eqb (key r) k) rs)) ks)
  = List.length (filter (fun r => p r && existsb (String.eqb (key r)) ks) rs).
Proof.
  induction ks as [|k ks IH]; intros Hn.
  - cbn. induction rs as [|r rs IHr]; cbn [filter]; [reflexivity|].
    now rewrite andb_false_r.
  - inversion Hn as [|? ? Hk Hn']; subst. cbn [map].
    change (list_sum (?a :: ?l)) with (a + list_sum l)%nat.
    rewrite IH by exact Hn'. rewrite length_filter_or.
    + f_equal. apply filter_ext. intros r. cbn [existsb].
      destruct (p r); reflexivity.
    + intros r. destruct (p r); [|reflexivity]. cbn [andb].
      destruct (String.eqb (key r) k) eqn:E; [|reflexivity].
      apply String.eqb_eq in E. subst k. cbn [andb].
      destruct (existsb (String.eqb (key r)) ks) eqn:Ex; [|reflexivity].
      apply existsb_exists in Ex as (x & Hx & Exx). apply String.eqb_eq in Exx.
      subst x. contradiction.
Qed.

Lemma filter_false {A} (l : list A) : filter (fun _ => false) l = [].
Proof. induction l; auto. Qed.

Lemma month_button_resources_nan host rs : month_button_resources host "NaN-NaN" rs = [].
Proof.
  unfold month_button_resources. cbv zeta.
  change (parseInt (nth 0 (split_on "-" "NaN-NaN") EmptyString)) with (@None Z).
  induction rs as [|r rs IH]; [reflexivity|]. cbn [filter].
  rewrite num_eq_none_r. cbn [andb]. exact IH.
Qed.

Lemma filter_month_nan host rs : filter_month host "NaN-NaN" rs = [].
Proof.
  unfold filter_month.
  change (month_window host "NaN-NaN") with (@None Z, @None Z). cbn iota.
  induction rs as [|r rs IH]; [reflexivity|]. cbn [filter]. exact IH.
Qed.

(** ** The month buttons together *)

(** X2: the month buttons have distinct keys and every record's month key
    has a button; a record is counted by the button of key [k] exactly when
    its date is valid with a year [>= 0] and its month key is [k], so such a
    record is counted by exactly one button and any other record by none;
    summed over all buttons, the counts shown add up to the number of records
    with such a date. *)
Theorem month_buttons_partition (host : Host) (d : option DashboardData)
  (rs : list DeletedResource) :
  resources_of d = Some rs ->
  NoDup (getAvailableMonths host d) /\
  (forall r, In r rs -> In (resource_month_key host r) (getAvailableMonths host d)) /\
  (forall r k, In r rs -> In k (getAvailableMonths host d) ->
     (In r (month_button_resources host k rs)
      <-> dated_ce host r = true /\ resource_month_key host r = k)) /\
  list_sum (map (fun k => List.length (month_button_resources host k rs))
                (getAvailableMonths host d))
  = List.length (filter (dated_ce host) rs).
Proof.
  intros Hd. destruct (available_months_in host d rs Hd) as [Hn Hi].
  assert (Hbtn : forall k, In k (getAvailableMonths host d) ->
            month_button_resources host k rs
            = filter (fun r => dated_ce host r && String.eqb (resource_month_key host r) k) rs).
  { intros k Hk. apply Hi in Hk as (r & _ & Hkr).
    assert (Hk' : k = month_key host (new_Date host (deleted_at r)))
      by (rewrite <- Hkr; reflexivity).
    rewrite Hk' at 1. rewrite month_button_resources_key. rewrite <- Hk'.
    reflexivity. }
  split; [exact Hn|split; [|split]].
  - intros r Hr. apply Hi. exists r. auto.
  - intros r k Hr Hk. rewrite (Hbtn k Hk), filter_In, andb_true_iff, String.eqb_eq.
    tauto.
  - erewrite map_ext_in.
    2:{ intros k Hk. rewrite (Hbtn k Hk). reflexivity. }
    rewrite (filter_groups_count (dated_ce host) (resource_month_key host)) by exact Hn.
    f_equal. apply filter_ext_in. intros r Hr.
    destruct (dated_ce host r); [|reflexivity]. cbn [andb].
    apply existsb_exists. exists (resource_month_key host r). split.
    + apply Hi. exists r. auto.
    + apply String.eqb_refl.
Qed.

Lemma month_buttons_partition_witness :
  let rs := [ev "EC2" "i-1" "2025-03-02T10:00:00Z" 10;
             ev "S3" "b-1" "not a date" 5;
             ev "EBS" "v-1" "2025-01-20T08:30:00Z" 2] in
  NoDup (getAvailableMonths utc_host (sample_data rs)) /\
  (forall r, In r rs -> In (resource_month_key utc_host r)
                           (getAvailableMonths utc_host (sample_data rs))) /\
  (forall r k, In r rs -> In k (getAvailableMonths utc_host (sample_data rs)) ->
     (In r (month_button_resources utc_host k rs)
      <-> dated_ce utc_host r = true /\ resource_month_key utc_host r = k)) /\
  list_sum (map (fun k => List.length (month_button_resources utc_host k rs))
                (getAvailableMonths utc_host (sample_data rs)))
  = List.length (filter (dated_ce utc_host) rs).
Proof. intros rs. apply month_buttons_partition. reflexivity. Defined.

(** X3: the "Download Complete Log" button is disabled exactly when the
    complete-log handler would only alert that there is no data, and the
    month buttons are rendered exactly when that button is enabled. *)
Theorem complete_log_button_state (host : Host) (now : Z) (d : option DashboardData) :
  (complete_log_disabled d = true <-> downloadAllLogs host now d = Alert no_data_message) /\
  month_buttons_shown host d = negb (complete_log_disabled d).
Proof.
  unfold complete_log_disabled, totalResources, month_buttons_shown.
  destruct (resources_of d) as [[|x xs]|] eqn:Hd.
  - unfold downloadAllLogs, getAvailableMonths. rewrite Hd. cbn.
    split; [split; reflexivity|reflexivity].
  - destruct (downloadAllLogs_download host now d (x :: xs) Hd ltac:(discriminate))
      as (doc & fn & Hdl & _).
    rewrite Hdl. destruct (available_months_in host d _ Hd) as [_ Hi].
    assert (Hx : In (resource_month_key host x) (getAvailableMonths host d))
      by (apply Hi; exists x; split; [left|]; reflexivity).
    destruct (getAvailableMonths host d); [contradiction|]. cbn.
    split; [split; discriminate|reflexivity].
  - unfold downloadAllLogs, getAvailableMonths. rewrite Hd. cbn.
    split; [split; reflexivity|reflexivity].
Qed.

(** X4: a record whose [deleted_at] does not parse puts the key "NaN-NaN"
    among the available months; its button is labelled " NaN" and counts no
    resource, and clicking it only alerts "No resources deleted in undefined
    NaN.". *)
Theorem unparsable_date_month_button (host : Host) (now : Z) (d : option DashboardData)
  (rs : list DeletedResource) (r : DeletedResource) :
  resources_of d = Some rs -> In r rs -> new_Date host (deleted_at r) = None ->
  In "NaN-NaN" (getAvailableMonths host d) /\
  month_button_label "NaN-NaN" = " NaN" /\
  month_button_resources host "NaN-NaN" rs = [] /\
  downloadMonthLog host now d "NaN-NaN" = Alert "No resources deleted in undefined NaN.".
Proof.
  intros Hd Hr Hnd. split; [|split; [reflexivity|split]].
  - apply (available_months_in host d rs Hd). exists r. split; [exact Hr|].
    unfold resource_month_key. rewrite Hnd. reflexivity.
  - apply month_button_resources_nan.
  - unfold downloadMonthLog. rewrite Hd.
    destruct rs as [|x xs]; [destruct Hr|]. cbv zeta.
    change (month_window host "NaN-NaN") with (@None Z, @None Z). cbn iota.
    rewrite filter_month_nan. reflexivity.
Qed.

Lemma unparsable_date_month_button_witness :
  let rs := [ev "EC2" "i-1" "2025-03-02T10:00:00Z" 10; ev "S3" "b-1" "not a date" 5] in
  In "NaN-NaN" (getAvailableMonths utc_host (sample_data rs)) /\
  month_button_label "NaN-NaN" = " NaN" /\
  month_button_resources utc_host "NaN-NaN" rs = [] /\
  downloadMonthLog utc_host sample_now (sample_data rs) "NaN-NaN"
  = Alert "No resources deleted in undefined NaN.".
Proof.
  intros rs. apply (unparsable_date_month_button utc_host sample_now (sample_data rs) rs
                      (ev "S3" "b-1" "not a date" 5)).
  - reflexivity.
  - right. left. reflexivity.
  - vm_compute. reflexivity.
Defined.

(** ** Helpers for the breakdowns *)

Definition not_member (k : string) : bool :=
  negb (existsb (String.eqb k) object_prototype_members).

Lemma add_to_breakdown_keys_own o k sv x :
  In x (map fst (add_to_breakdown o k sv)) ->
  In x (map fst o) \/ (x = k /\ not_member k = true).
Proof.
  unfold add_to_breakdown, not_member.
  destruct (has_own o k); [rewrite update_own_keys; auto|].
  destruct (existsb (String.eqb k) object_prototype_members); [auto|].
  rewrite map_app, in_app_iff. cbn. intuition.
Qed.

Lemma add_to_breakdown_count o k sv :
  (forall x, In x (map fst o) -> not_member x = true) ->
  sum_counts (add_to_breakdown o k sv)
  = (sum_counts o + if not_member k then 1 else 0)%nat.
Proof.
  intros Ho. unfold not_member.
  destruct (existsb (String.eqb k) object_prototype_members) eqn:Ek; cbn [negb].
  - unfold add_to_breakdown. destruct (has_own o k) eqn:Eh.
    + apply has_own_in in Eh. apply Ho in Eh. unfold not_member in Eh.
      rewrite Ek in Eh. discriminate.
    + rewrite Ek. lia.
  - rewrite sum_counts_add by exact Ek. lia.
Qed.

Lemma breakdown_count_from key rs o :
  (forall x, In x (map fst o) -> not_member x = true) ->
  sum_counts (fold_left (fun o r => add_to_breakdown o (key r) (monthly_or_zero r)) rs o)
  = (sum_counts o + List.length (filter (fun r => not_member (key r)) rs))%nat.
Proof.
  revert o. induction rs as [|r rs IH]; intros o Ho; cbn [fold_left filter]; [cbn; lia|].
  rewrite IH.
  - rewrite add_to_breakdown_count by exact Ho.
    destruct (not_member (key r)); cbn [List.length]; lia.
  - intros x Hx. apply add_to_breakdown_keys_own in Hx as [Hx|[-> Hk]]; auto.
Qed.

Lemma add_to_breakdown_nodup o k sv :
  NoDup (map fst o) -> NoDup (map fst (add_to_breakdown o k sv)).
Proof.
  intros Hn. unfold add_to_breakdown. destruct (has_own o k) eqn:Eh.
  - now rewrite update_own_keys.
  - destruct (existsb (String.eqb k) object_prototype_members); [exact Hn|].
    rewrite map_app. cbn [map fst].
    replace (map fst o ++ [k])%list with (set_add (map fst o) k)
      by (unfold set_add; now rewrite existsb_map_fst, Eh).
    now apply set_add_nodup.
Qed.

Lemma breakdown_nodup_from key rs o :
  NoDup (map fst o) ->
  NoDup (map fst (fold_left (fun o r => add_to_breakdown o (key r) (monthly_or_zero r)) rs o)).
Proof.
  revert o. induction rs as [|r rs IH]; intros o Hn; [exact Hn|].
  apply IH. now apply add_to_breakdown_nodup.
Qed.

Lemma breakdown_nodup key rs : NoDup (map fst (breakdown_by key rs)).
Proof. apply breakdown_nodup_from. constructor. Qed.

Lemma sorted_entries_nodup {V} (l : list (string * V)) :
  NoDup (map fst l) -> NoDup (map fst (sort_entries (object_entries l))).
Proof.
  intros Hn. eapply Permutation_NoDup; [|exact Hn].
  apply Permutation_map. unfold sort_entries.
  rewrite sort_by_perm. symmetry. apply object_entries_perm.
Qed.

(** ** The breakdowns *)

(** X5: the counts of [summary.by_type] add up to the number of selected
    events whose type does not name a member of [Object.prototype]; an event
    typed, say, "constructor" is counted in no entry. *)
Theorem by_type_counts_skip_members (rs : list DeletedResource) :
  list_sum (map te_count (getBreakdownByType rs))
  = List.length (filter (fun r => not_member (resource_type r)) rs).
Proof.
  unfold getBreakdownByType. rewrite map_map.
  change (fun x => te_count (type_entry x)) with (fun kv : string * Acc => count (snd kv)).
  fold (sum_counts (object_entries (breakdown_by resource_type rs))).
  rewrite (sum_counts_perm _ _ (object_entries_perm _)).
  unfold breakdown_by. rewrite breakdown_count_from by (intros x []). reflexivity.
Qed.

(** X6: the entries of every breakdown have distinct keys: the types of
    [summary.by_type] are pairwise distinct, and the month keys behind
    [summary.by_month] (one per distinct month key of the events) and the
    dates of [summary.by_day] are in strictly ascending order. *)
Theorem breakdown_keys_distinct (host : Host) (rs : list DeletedResource) :
  NoDup (map te_type (getBreakdownByType rs)) /\
  (exists l, month_groups host rs l /\ Sorted (fun a b => String.compare a b = Lt) (map fst l) /\
             getBreakdownByMonth host rs = map month_entry l) /\
  (forall bd, getBreakdownByDay host rs = Some bd ->
              Sorted (fun a b => String.compare a b = Lt) (map de_date bd)).
Proof.
  split; [|split].
  - unfold getBreakdownByType. rewrite map_map.
    change (fun x => te_type (type_entry x)) with (fun kv : string * Acc => fst kv).
    eapply Permutation_NoDup; [|apply breakdown_nodup].
    symmetry. apply Permutation_map, object_entries_perm.
  - eexists. split; [apply month_groups_breakdown|split; [|reflexivity]].
    apply Sorted_le_strict; [|apply sorted_entries_nodup, breakdown_nodup].
    apply Sorted_map_fst, sort_entries_by_key. apply Forall_forall. intros kv Hkv.
    destruct (breakdown_entries_keys _ _ _ Hkv) as (r & _ & ->).
    apply month_key_shape.
  - intros bd. unfold getBreakdownByDay. destruct (forallb _ rs) eqn:Hall; [|discriminate].
    intros H. injection H as <-. rewrite map_map.
    change (fun x => de_date (day_entry host x)) with (fun kv : string * Acc => fst kv).
    apply Sorted_le_strict; [|apply sorted_entries_nodup, breakdown_nodup].
    apply Sorted_map_fst, sort_entries_by_key. apply Forall_forall. intros kv Hkv.
    destruct (breakdown_entries_keys _ _ _ Hkv) as (r & Hr & ->).
    destruct (day_keys_valid _ _ _ Hall Hr) as (t & k & _ & _ & -> & Hok & _). exact Hok.
Qed.

Lemma breakdown_keys_distinct_witness :
  let rs := [ev "S3" "b-1" "2025-03-02T10:00:00Z" 5;
             ev "EC2" "i-1" "2025-03-02T11:00:00Z" 10;
             ev "S3" "b-2" "2025-02-01T09:00:00Z" 2] in
  NoDup (map te_type (getBreakdownByType rs)) /\
  (exists l, month_groups utc_host rs l /\ Sorted (fun a b => String.compare a b = Lt) (map fst l) /\
             getBreakdownByMonth utc_host rs = map month_entry l) /\
  Sorted (fun a b => String.compare a b = Lt)
    (map de_date (match getBreakdownByDay utc_host rs with Some bd => bd | None => [] end)).
Proof.
  intros rs. destruct (breakdown_keys_distinct utc_host rs) as (H1 & H2 & H3).
  split; [exact H1|split; [exact H2|]].
  apply H3. vm_compute. reflexivity.
Defined.

(** ** The downloaded documents *)

(** X7: for a month key "Y-MM" with [Y] free of "-" and [MM] the two-digit
    month [m] (1 to 12) that selects at least one event, the month log is
    downloaded as "costguardian-Y-MM-log.json"; its title, month and year
    name that month and [Y], and its range runs from the first to the last
    day of the month window as [toISOString] writes them. *)
Theorem month_log_document_fields (host : Host) (now : Z) (d : option DashboardData)
  (rs : list DeletedResource) (ys : string) (m : Z) :
  resources_of d = Some rs -> 1 <= m <= 12 ->
  all_chars (fun c => negb (Ascii.eqb c "-")) ys = true ->
  filter_month host (ys +++ "-" +++ pad2 m) rs <> [] ->
  let name := nth (Z.to_nat (m - 1)) months EmptyString in
  exists doc,
    downloadMonthLog host now d (ys +++ "-" +++ pad2 m)
    = Download doc ("costguardian-" +++ ys +++ "-" +++ pad2 m +++ "-log.json") /\
    title (export_info doc) = "CostGuardian - " +++ name +++ " " +++ ys +++ " Deletion Log" /\
    info_month (export_info doc) = Some name /\
    info_year (export_info doc) = Some ys /\
    Some (range_from (export_info doc)) = toISOString (fst (month_window host (ys +++ "-" +++ pad2 m))) /\
    Some (range_to (export_info doc)) = toISOString (snd (month_window host (ys +++ "-" +++ pad2 m))).
Proof.
  intros Hd Hm Hys Hne name.
  set (my := ys +++ "-" +++ pad2 m) in *.
  destruct (filter_month host my rs) as [|r0 fs] eqn:Ef; [contradiction|].
  assert (Hr0 : In r0 (filter_month host my rs)) by (rewrite Ef; now left).
  destruct (filter_month_valid _ _ _ _ Hr0) as (sd & ed & _ & Hw & _).
  assert (Hday : exists bd, getBreakdownByDay host (r0 :: fs) = Some bd).
  { unfold getBreakdownByDay.
    replace (forallb _ (r0 :: fs)) with true; [eexists; reflexivity|].
    symmetry. apply forallb_forall. intros r Hr. rewrite <- Ef in Hr.
    destruct (filter_month_valid _ _ _ _ Hr) as (? & ? & t & _ & -> & _).
    destruct (day_key_shape t) as (k & -> & _). reflexivity. }
  destruct Hday as [bd Hbd].
  destruct (toISOString_some now) as [now_iso Hnow].
  destruct (toISOString_some sd) as [from Hfrom].
  destruct (toISOString_some ed) as [to Hto].
  assert (Hsplit : split_on "-" my = [ys; pad2 m]).
  { unfold my. change ("-" +++ pad2 m) with (String "-" (pad2 m)).
    rewrite split_on_sep by exact Hys.
    rewrite split_on_no_sep by (apply digits_no_dash, pad2_digits). reflexivity. }
  assert (Hname : getMonthName (option_map (fun m => m - 1)
                    (parseInt_opt (nth_error (split_on "-" my) 1))) = Some name).
  { rewrite Hsplit. cbn [nth_error parseInt_opt].
    rewrite parseInt_pad2 by lia. cbn [option_map]. apply getMonthName_range. lia. }
  unfold downloadMonthLog. rewrite Hd.
  destruct rs as [|x xs]; [discriminate Ef|]. cbv zeta.
  rewrite Hw. cbv iota. rewrite Ef.
  rewrite Hnow, Hfrom, Hto, Hbd, Hname, Hsplit.
  cbn [nth nth_error in_template].
  eexists. split; [reflexivity|].
  cbn [export_info title info_month info_year range_from range_to].
  cbn [fst snd]. rewrite ?Hfrom, ?Hto.
  repeat split.
Qed.

Lemma month_log_document_fields_witness :
  let rs := [ev "EC2" "i-1" "2025-03-02T10:00:00Z" 10;
             ev "S3" "b-1" "2025-01-10T00:00:00Z" 5] in
  let name := nth (Z.to_nat (3 - 1)) months EmptyString in
  exists doc,
    downloadMonthLog utc_host sample_now (sample_data rs) ("2025" +++ "-" +++ pad2 3)
    = Download doc ("costguardian-" +++ "2025" +++ "-" +++ pad2 3 +++ "-log.json") /\
    title (export_info doc) = "CostGuardian - " +++ name +++ " " +++ "2025" +++ " Deletion Log" /\
    info_month (export_info doc) = Some name /\
    info_year (export_info doc) = Some "2025" /\
    Some (range_from (export_info doc))
    = toISOString (fst (month_window utc_host ("2025" +++ "-" +++ pad2 3))) /\
    Some (range_to (export_info doc))
    = toISOString (snd (month_window utc_host ("2025" +++ "-" +++ pad2 3))).
Proof.
  intros rs name.
  apply (month_log_document_fields utc_host sample_now (sample_data rs) rs "2025" 3).
  - reflexivity.
  - lia.
  - reflexivity.
  - vm_compute. discriminate.
Defined.

(** X8: the complete log is downloaded as "costguardian-complete-log-D.json"
    where [D] is the date part (before "T") of the document's [export_date];
    that [export_date] is the current time as [toISOString] writes it, and
    the range ends at it. *)
Theorem complete_log_filename (host : Host) (now : Z) (d : option DashboardData)
  (rs : list DeletedResource) :
  resources_of d = Some rs -> rs <> [] ->
  exists doc,
    downloadAllLogs host now d
    = Download doc ("costguardian-complete-log-"
                    +++ nth 0 (split_on "T" (export_date (export_info doc))) EmptyString
                    +++ ".json") /\
    Some (export_date (export_info doc)) = toISOString (Some now) /\
    range_to (export_info doc) = export_date (export_info doc).
Proof.
  intros Hd Hne. unfold downloadAllLogs. rewrite Hd.
  destruct rs as [|r0 rs0]; [contradiction|]. cbv zeta.
  destruct (range_from_all_some host now (r0 :: rs0)) as [from Hfrom].
  destruct (toISOString_some now) as [now_iso Hnow].
  unfold formatDate, day_key. rewrite Hnow, Hfrom. cbn [option_map].
  eexists. split; [apply f_equal2; reflexivity|].
  cbn [export_info export_date range_to]. split; reflexivity.
Qed.

Lemma complete_log_filename_witness :
  let rs := [ev "EC2" "i-1" "2025-03-02T10:00:00Z" 10] in
  exists doc,
    downloadAllLogs utc_host sample_now (sample_data rs)
    = Download doc ("costguardian-complete-log-"
                    +++ nth 0 (split_on "T" (export_date (export_info doc))) EmptyString
                    +++ ".json") /\
    Some (export_date (export_info doc)) = toISOString (Some sample_now) /\
    range_to (export_info doc) = export_date (export_info doc).
Proof.
  intros rs. apply (complete_log_filename utc_host sample_now (sample_data rs) rs).
  - reflexivity.
  - discriminate.
Defined.
